(** * remove_dupes.py: duplicate-file remover, shallow embedding

    The program scans a directory for media files, classifies the ones
    whose file name lacks a marker substring as originals, looks for
    marker-carrying files sharing an original's name prefix and
    extension, optionally confirms them by SHA-1 digest, and reports or
    deletes them.

    The embedding follows [src/remove_dupes.py] function by function.
    What the script takes from Python's library ([str] methods,
    [posixpath], [fnmatch], [glob], [os], [open], [hashlib]) is modelled
    in the modules [Py], [Fnmatch], [Posix] and [Glob] below, for a POSIX
    host ([os.path.sep] is ["/"]). *)

From Stdlib Require Import String Ascii List Bool Arith ZArith Lia.
From Stdlib Require Import Init.Byte.
Import ListNotations.

Local Open Scope string_scope.
Local Open Scope list_scope.

(* ================================================================== *)
(** ** Python string builtins

    A character of the model is a code point below 256.  Python
    matches [?] and [[...]] per code point, so names holding other
    characters are outside the model. *)

Module Py.

(** [not s], the emptiness test on a string *)
Definition is_empty (s : string) : bool :=
  match s with EmptyString => true | String _ _ => false end.

(** [s.split(c)] for a one-character separator: never the empty list *)
Fixpoint split (c : ascii) (s : string) : list string :=
  match s with
  | EmptyString => [EmptyString]
  | String a r =>
      if Ascii.eqb a c then EmptyString :: split c r
      else match split c r with
           | h :: t => String a h :: t
           | [] => [String a EmptyString]
           end
  end.

(** [s.startswith(pre)] *)
Fixpoint startswith (s pre : string) : bool :=
  match pre, s with
  | EmptyString, _ => true
  | String _ _, EmptyString => false
  | String b pre', String a s' => Ascii.eqb a b && startswith s' pre'
  end.

(** [s.endswith(suf)]: some tail of [s] is [suf] *)
Fixpoint endswith (s suf : string) : bool :=
  String.eqb s suf ||
  match s with
  | EmptyString => false
  | String _ r => endswith r suf
  end.

(** [needle in hay] *)
Fixpoint contains (needle hay : string) : bool :=
  startswith hay needle ||
  match hay with
  | EmptyString => false
  | String _ r => contains needle r
  end.

(** [c in s] for a character *)
Fixpoint mem (c : ascii) (s : string) : bool :=
  match s with
  | EmptyString => false
  | String a r => Ascii.eqb a c || mem c r
  end.

(** [s.rfind(c)]: the highest index of [c], or [-1] *)
Fixpoint rfind (c : ascii) (s : string) : Z :=
  match s with
  | EmptyString => (-1)%Z
  | String a r =>
      let k := rfind c r in
      if (0 <=? k)%Z then (k + 1)%Z
      else if Ascii.eqb a c then 0%Z else (-1)%Z
  end.

(** [s.find(c, k)]: the lowest index [>= k] of [c], if any *)
Fixpoint find_from (c : ascii) (s : string) (k : nat) : option nat :=
  match s with
  | EmptyString => None
  | String a r =>
      match k with
      | O => if Ascii.eqb a c then Some O
             else option_map S (find_from c r O)
      | S k' => option_map S (find_from c r k')
      end
  end.

Fixpoint drop (n : nat) (s : string) : string :=
  match n, s with
  | O, _ => s
  | S _, EmptyString => EmptyString
  | S n', String _ r => drop n' r
  end.

Fixpoint take (n : nat) (s : string) : string :=
  match n, s with
  | O, _ => EmptyString
  | S _, EmptyString => EmptyString
  | S n', String a r => String a (take n' r)
  end.

(** [s[i:]] and [s[:i]] for an index [i >= 0] *)
Definition slice_from (i : Z) (s : string) : string := drop (Z.to_nat i) s.
Definition slice_to (i : Z) (s : string) : string := take (Z.to_nat i) s.

(** [s[i:j]] for [0 <= i] and [0 <= j] *)
Definition slice (i j : nat) (s : string) : string := take (j - i) (drop i s).

(** [s.rstrip(c)] *)
Fixpoint rstrip (c : ascii) (s : string) : string :=
  match s with
  | EmptyString => EmptyString
  | String a r =>
      match rstrip c r with
      | EmptyString => if Ascii.eqb a c then EmptyString
                       else String a EmptyString
      | r' => String a r'
      end
  end.

(** [s == c * len(s)] *)
Fixpoint all_char (c : ascii) (s : string) : bool :=
  match s with
  | EmptyString => true
  | String a r => Ascii.eqb a c && all_char c r
  end.

(** first and last character, where the string has one *)
Definition first_char (s : string) : option ascii :=
  match s with EmptyString => None | String a _ => Some a end.

Fixpoint last_char (s : string) : option ascii :=
  match s with
  | EmptyString => None
  | String a EmptyString => Some a
  | String _ r => last_char r
  end.

Fixpoint drop_last (s : string) : string :=
  match s with
  | EmptyString => EmptyString
  | String _ EmptyString => EmptyString
  | String a r => String a (drop_last r)
  end.

(** the horizontal tab, written ["\t"] in the script *)
Definition tab : string := String (ascii_of_nat 9) EmptyString.

End Py.

(* ================================================================== *)
(** ** [fnmatch]: shell-style patterns

    [fnmatch.translate] turns a pattern into a regular expression that
    must match the whole name.  Here the pattern becomes a list of
    items, one per regular-expression atom, and [match_items] is the
    matching of that expression: every item but [Star] consumes exactly
    one character. *)

Module Fnmatch.
Import Py.

Inductive item : Type :=
| Star                                      (* [*]: any run of characters *)
| AnyChar                                   (* [?], and the negated empty set *)
| Lit (c : ascii)                           (* an ordinary character *)
| Never                                     (* the empty set: no match *)
| CharSet (neg : bool) (chunks : list string).
    (* [[...]]: the characters of every chunk, and the ranges from the
       last character of a chunk to the first of the next one *)

(** the index of the bracket closing a set, in the text after ["["] *)
Definition close_index (r : string) : option nat :=
  let j := match r with String "!" _ => 1 | _ => 0 end in
  let j := match drop j r with String "]" _ => S j | _ => j end in
  find_from "]" r j.

Fixpoint add_to_last (chunks : list string) (s : string) : list string :=
  match chunks with
  | [] => []
  | [c] => [(c ++ s)%string]
  | c :: rest => c :: add_to_last rest s
  end.

(** the loop cutting [stuff] at the hyphens that make ranges *)
Fixpoint scan_ranges (fuel : nat) (stuff : string) (i k : nat)
         (chunks : list string) : list string :=
  match fuel with
  | O => chunks
  | S f =>
      match find_from "-" stuff k with
      | Some k' =>
          scan_ranges f stuff (S k') (k' + 3) (chunks ++ [slice i k' stuff])
      | None =>
          let chunk := drop i stuff in
          if is_empty chunk then add_to_last chunks "-"
          else chunks ++ [chunk]
      end
  end.

Definition char_gt (a b : option ascii) : bool :=
  match a, b with
  | Some x, Some y => Nat.ltb (nat_of_ascii y) (nat_of_ascii x)
  | _, _ => false
  end.

(** "Remove empty ranges": from the right, a chunk whose last
    character is above the first of its successor is merged with it,
    both end points dropped *)
Definition drop_empty_ranges (chunks : list string) : list string :=
  fold_right
    (fun c acc =>
       match acc with
       | d :: rest =>
           if char_gt (last_char c) (first_char d)
           then (drop_last c ++ drop 1 d)%string :: rest
           else c :: acc
       | [] => [c]
       end)
    [] chunks.

Definition set_chunks (stuff : string) : list string :=
  if mem "-" stuff then
    let k := match stuff with String "!" _ => 2 | _ => 1 end in
    drop_empty_ranges (scan_ranges (S (String.length stuff)) stuff 0 k [])
  else [stuff].

Definition set_item (stuff : string) : item :=
  match set_chunks stuff with
  | [] => Never
  | [EmptyString] => Never
  | [String "!" EmptyString] => AnyChar
  | String "!" c0 :: rest => CharSet true (c0 :: rest)
  | chunks => CharSet false chunks
  end.

Fixpoint translate_aux (fuel : nat) (after_star : bool) (pat : string)
  : list item :=
  match fuel with
  | O => []
  | S f =>
      match pat with
      | EmptyString => []
      | String c r =>
          if Ascii.eqb c "*" then
            (* consecutive stars are compressed into one *)
            if after_star then translate_aux f true r
            else Star :: translate_aux f true r
          else if Ascii.eqb c "?" then AnyChar :: translate_aux f false r
          else if Ascii.eqb c "[" then
            match close_index r with
            | None => Lit "[" :: translate_aux f false r
            | Some j =>
                set_item (take j r) :: translate_aux f false (drop (S j) r)
            end
          else Lit c :: translate_aux f false r
      end
  end.

Definition translate (pat : string) : list item :=
  translate_aux (String.length pat) false pat.

Definition in_range (lo : option ascii) (c : ascii) (hi : option ascii)
  : bool :=
  match lo, hi with
  | Some a, Some b =>
      Nat.leb (nat_of_ascii a) (nat_of_ascii c)
      && Nat.leb (nat_of_ascii c) (nat_of_ascii b)
  | _, _ => false
  end.

Fixpoint in_chunks (c : ascii) (chunks : list string) : bool :=
  match chunks with
  | [] => false
  | a :: rest =>
      mem c a
      || match rest with
         | b :: _ => in_range (last_char a) c (first_char b)
         | [] => false
         end
      || in_chunks c rest
  end.

Definition item_matches (it : item) (c : ascii) : bool :=
  match it with
  | Star => true
  | AnyChar => true
  | Lit a => Ascii.eqb c a
  | Never => false
  | CharSet neg chunks => xorb neg (in_chunks c chunks)
  end.

Fixpoint match_items (items : list item) (s : string) : bool :=
  match items with
  | [] => is_empty s
  | Star :: rest =>
      (fix any_tail (t : string) : bool :=
         match_items rest t
         || match t with
            | EmptyString => false
            | String _ t' => any_tail t'
            end) s
  | it :: rest =>
      match s with
      | EmptyString => false
      | String c t => item_matches it c && match_items rest t
      end
  end.

(** [fnmatch.fnmatchcase(name, pat)]; on POSIX [fnmatch.filter] tests
    each name this way, [os.path.normcase] being the identity *)
Definition fnmatch (name pat : string) : bool :=
  match_items (translate pat) name.

End Fnmatch.

(* ================================================================== *)
(** ** Outcomes of effectful calls *)

(** the [OSError] subclasses the modelled system calls raise *)
Inductive exn : Type :=
| FileNotFoundError      (* ENOENT *)
| NotADirectoryError     (* ENOTDIR *)
| IsADirectoryError      (* EISDIR *)
| PermissionError.       (* EACCES *)

(** a call returns a value, raises, or (for the functions defined with a
    recursion budget) runs out of that budget *)
Inductive outcome (A : Type) : Type :=
| Ok (a : A)
| Raise (e : exn)
| OutOfFuel.

Arguments Ok {A} a.
Arguments Raise {A} e.
Arguments OutOfFuel {A}.

Definition exn_eqb (a b : exn) : bool :=
  match a, b with
  | FileNotFoundError, FileNotFoundError
  | NotADirectoryError, NotADirectoryError
  | IsADirectoryError, IsADirectoryError
  | PermissionError, PermissionError => true
  | _, _ => false
  end.

Definition obind {A B : Type} (m : outcome A) (k : A -> outcome B)
  : outcome B :=
  match m with
  | Ok a => k a
  | Raise e => Raise e
  | OutOfFuel => OutOfFuel
  end.

Declare Scope outcome_scope.
Delimit Scope outcome_scope with outcome.
Notation "'let?' x ':=' m 'in' k" := (obind m (fun x => k))
  (at level 10, x name, m at level 100, k at level 200) : outcome_scope.
Local Open Scope outcome_scope.

(* ================================================================== *)
(** ** The file system and the [os] / [posixpath] calls

    A directory tree without symbolic links.  The process's working
    directory is the root of the tree, so a relative and an absolute
    path name the same node.  A file carries its bytes and whether the
    process may read it; a directory carries its entries, in listing
    order, and whether the process may unlink entries of it. *)

Module Posix.
Import Py.

Definition sep : ascii := "/".

(** [posixpath.join(a, b)] *)
Definition join (a b : string) : string :=
  if startswith b "/" then b
  else if is_empty a || endswith a "/" then (a ++ b)%string
  else (a ++ "/" ++ b)%string.

(** [posixpath.split(p)] *)
Definition path_split (p : string) : string * string :=
  let i := (rfind sep p + 1)%Z in
  let head := slice_to i p in
  let tail := slice_from i p in
  let head :=
    if negb (is_empty head) && negb (all_char sep head)
    then rstrip sep head else head in
  (head, tail).

#[warnings="-register-all"]
Inductive node : Type :=
| File (content : list byte) (readable : bool)
| Dir (entries : list (string * node)) (writable : bool).

Definition is_dir (n : node) : bool :=
  match n with Dir _ _ => true | File _ _ => false end.

Fixpoint assoc (name : string) (es : list (string * node)) : option node :=
  match es with
  | [] => None
  | (k, v) :: rest => if String.eqb k name then Some v else assoc name rest
  end.

Definition child (n : node) (name : string) : option node :=
  match n with
  | Dir es _ => assoc name es
  | File _ _ => None
  end.

(** the node at a list of entry names, from the root down *)
Fixpoint get (n : node) (path : list string) : option node :=
  match path with
  | [] => Some n
  | x :: rest =>
      match child n x with
      | Some c => get c rest
      | None => None
      end
  end.

(** one component of a path name, walked from the directory at [cp] *)
Definition step (root : node) (cp : list string) (seg : string)
  : outcome (list string) :=
  match get root cp with
  | Some (Dir _ _) =>
      if is_empty seg || String.eqb seg "." then Ok cp
      else if String.eqb seg ".." then Ok (removelast cp)
      else match get root (cp ++ [seg]) with
           | Some _ => Ok (cp ++ [seg])
           | None => Raise FileNotFoundError
           end
  | Some (File _ _) => Raise NotADirectoryError
  | None => Raise FileNotFoundError
  end.

Fixpoint walk (root : node) (cp : list string) (segs : list string)
  : outcome (list string) :=
  match segs with
  | [] => Ok cp
  | seg :: rest => let? cp' := step root cp seg in walk root cp' rest
  end.

(** path resolution: the entry names leading to the node a path
    denotes; the empty path denotes nothing *)
Definition resolve (root : node) (p : string) : outcome (list string) :=
  if is_empty p then Raise FileNotFoundError
  else walk root [] (split sep p).

(** [os.stat(p)], as far as the node itself *)
Definition stat (root : node) (p : string) : outcome node :=
  let? cp := resolve root p in
  match get root cp with
  | Some n => Ok n
  | None => Raise FileNotFoundError
  end.

(** [os.path.lexists(p)] *)
Definition lexists (root : node) (p : string) : bool :=
  match stat root p with Ok _ => true | _ => false end.

(** [os.path.isdir(p)] *)
Definition isdir (root : node) (p : string) : bool :=
  match stat root p with Ok n => is_dir n | _ => false end.

(** [os.scandir(p)]: the entries of a directory, in listing order *)
Definition scandir (root : node) (p : string)
  : outcome (list (string * node)) :=
  let? n := stat root p in
  match n with
  | Dir es _ => Ok es
  | File _ _ => Raise NotADirectoryError
  end.

(** [os.listdir(p)] *)
Definition listdir (root : node) (p : string) : outcome (list string) :=
  let? es := scandir root p in Ok (map fst es).

(** [open(p, 'rb')] followed by reading: the bytes of the file *)
Definition open_rb (root : node) (p : string) : outcome (list byte) :=
  let? n := stat root p in
  match n with
  | Dir _ _ => Raise IsADirectoryError
  | File content true => Ok content
  | File _ false => Raise PermissionError
  end.

(** the tree without the entries named by [path] *)
Fixpoint remove_at (n : node) (path : list string) : node :=
  match path, n with
  | [], _ => n
  | _, File _ _ => n
  | [x], Dir es w =>
      Dir (filter (fun e => negb (String.eqb (fst e) x)) es) w
  | x :: rest, Dir es w =>
      Dir (map (fun e => if String.eqb (fst e) x
                         then (fst e, remove_at (snd e) rest) else e) es) w
  end.

(** [os.remove(p)], that is unlink(2): the new tree and the outcome.
    The directory holding the entry must be writable, and the entry
    must not be a directory. *)
Definition remove (root : node) (p : string) : node * outcome unit :=
  match resolve root p with
  | Ok cp =>
      match cp, get root (removelast cp), get root cp with
      | _ :: _, Some (Dir _ false), _ => (root, Raise PermissionError)
      | _ :: _, _, Some (File _ _) => (remove_at root cp, Ok tt)
      | _, _, _ => (root, Raise IsADirectoryError)
      end
  | Raise e => (root, Raise e)
  | OutOfFuel => (root, OutOfFuel)
  end.

End Posix.

(* ================================================================== *)
(** ** [glob.glob] *)

Module Glob.
Import Py Posix.

(** [glob.has_magic]: one of [*], [?], [[] occurs *)
Definition has_magic (s : string) : bool :=
  mem "*" s || mem "?" s || mem "[" s.

(** [_ishidden]: the name starts with a dot *)
Definition ishidden (s : string) : bool := startswith s ".".

(** [_listdir]: the names in a directory, directories only when
    [dironly]; the empty name is the current directory, and an
    [OSError] of the scan gives no name at all *)
Definition listdir_quiet (root : node) (dirname : string) (dironly : bool)
  : list string :=
  match scandir root (if is_empty dirname then "." else dirname) with
  | Ok es =>
      map fst (filter (fun e => negb dironly || is_dir (snd e)) es)
  | _ => []
  end.

(** [_glob1]: the names in [dirname] matching a pattern *)
Definition glob1 (root : node) (dirname pattern : string) (dironly : bool)
  : list string :=
  let names := listdir_quiet root dirname dironly in
  let names :=
    if negb (ishidden pattern)
    then filter (fun x => negb (ishidden x)) names else names in
  filter (fun x => Fnmatch.fnmatch x pattern) names.

(** [_glob0]: a literal base name *)
Definition glob0 (root : node) (dirname basename : string) : list string :=
  if negb (is_empty basename) then
    if lexists root (join dirname basename) then [basename] else []
  else
    if isdir root dirname then [basename] else [].

(** the body of [_iglob], without the recursive [**]; [deeper] stands
    for the call of [_iglob] on the directory part of the pattern *)
Definition iglob_in (deeper : string -> list string) (root : node)
           (pathname : string) (dironly : bool) : list string :=
  let (dirname, basename) := path_split pathname in
  if negb (has_magic pathname) then
    if negb (is_empty basename) then
      if lexists root pathname then [pathname] else []
    else
      if isdir root dirname then [pathname] else []
  else if is_empty dirname then
    glob1 root "" basename dironly
  else
    let dirs :=
      if negb (String.eqb dirname pathname) && has_magic dirname
      then deeper dirname
      else [dirname] in
    flat_map
      (fun d =>
         map (join d)
             (if has_magic basename then glob1 root d basename dironly
              else glob0 root d basename))
      dirs.

(** [_iglob]; the budget bounds the recursion on the directory part *)
Fixpoint iglob (fuel : nat) (root : node) (pathname : string)
         (dironly : bool) : list string :=
  iglob_in
    (fun dirname =>
       match fuel with
       | O => []
       | S f => iglob f root dirname true
       end)
    root pathname dironly.

(** [glob.glob(pathname)] for a non-empty pattern *)
Definition glob (root : node) (pathname : string) : list string :=
  iglob (String.length pathname) root pathname false.

End Glob.

(* ================================================================== *)
(** ** The process state and its monad

    The state a run threads: the file system, the lines printed so far,
    and the paths handed to [os.remove] so far (a record of the
    deletion attempts, successful or not). *)

Record world : Type := mkWorld {
  fs : Posix.node;
  stdout : list string;
  unlinks : list string
}.

Definition M (A : Type) : Type := world -> world * outcome A.

Definition ret {A : Type} (a : A) : M A := fun w => (w, Ok a).

Definition bind {A B : Type} (m : M A) (k : A -> M B) : M B :=
  fun w =>
    match m w with
    | (w', Ok a) => k a w'
    | (w', Raise e) => (w', Raise e)
    | (w', OutOfFuel) => (w', OutOfFuel)
    end.

Declare Scope monad_scope.
Delimit Scope monad_scope with monad.
Notation "x <- m ;; k" := (bind m (fun x => k))
  (at level 61, m at next level, right associativity) : monad_scope.
Notation "m ;; k" := (bind m (fun _ => k))
  (at level 61, right associativity) : monad_scope.
Local Open Scope monad_scope.

(** a call that only reads the file system *)
Definition lift {A : Type} (f : Posix.node -> outcome A) : M A :=
  fun w => (w, f (fs w)).

Definition out_of_fuel {A : Type} : M A := fun w => (w, OutOfFuel).

(** [print(line)] *)
Definition print (line : string) : M unit :=
  fun w => (mkWorld (fs w) (stdout w ++ [line]) (unlinks w), Ok tt).

(** [os.remove(p)] *)
Definition os_remove (p : string) : M unit :=
  fun w =>
    let (fs', r) := Posix.remove (fs w) p in
    (mkWorld fs' (stdout w) (unlinks w ++ [p]), r).

(** [try: m  except e: handler] *)
Definition try_except {A : Type} (m : M A) (e : exn) (handler : M A) : M A :=
  fun w =>
    match m w with
    | (w', Raise e') => if exn_eqb e' e then handler w' else (w', Raise e')
    | r => r
    end.

(** [len(l)] read as a truth value *)
Definition nonempty {A : Type} (l : list A) : bool :=
  match l with [] => false | _ :: _ => true end.

(** [for x in l: body(x)] *)
Fixpoint for_each {A : Type} (l : list A) (body : A -> M unit) : M unit :=
  match l with
  | [] => ret tt
  | x :: rest => body x ;; for_each rest body
  end.

(* ================================================================== *)
(** ** [hashlib]: the interface of a hash object *)

Class Hasher : Type := {
  hstate : Type;
  sha1_new : hstate;                              (* [hashlib.sha1()] *)
  sha1_update : hstate -> list byte -> hstate;    (* [h.update(chunk)] *)
  sha1_hexdigest : hstate -> string               (* [h.hexdigest()] *)
}.

(* ================================================================== *)
(** ** The script *)

Section RemoveDupes.
Context {H : Hasher}.
Import Py Posix.

(** the size of the chunks [hash_file] reads *)
Definition chunk_size : nat := 1024.

(** the [while chunk != b''] loop of [hash_file]: read a chunk, feed
    it to the hash object, stop after the empty chunk *)
Fixpoint read_loop (fuel : nat) (h : hstate) (rest : list byte)
  : outcome hstate :=
  match fuel with
  | O => OutOfFuel
  | S f =>
      let chunk := firstn chunk_size rest in
      let h := sha1_update h chunk in
      match chunk with
      | [] => Ok h
      | _ :: _ => read_loop f h (skipn chunk_size rest)
      end
  end.

Definition hash_file (root : node) (filename : string) : outcome string :=
  let? content := open_rb root filename in
  let? h := read_loop (S (length content)) sha1_new content in
  Ok (sha1_hexdigest h).

(** the default of the [filetypes] parameter *)
Definition default_filetypes : list string :=
  ["jpeg"; "JPG"; "jpg"; "gif"; "GIF"; "png"; "PNG"; "mov"; "MOV"; "mp4"].

(** the default of the [indicator] parameters: one space *)
Definition default_indicator : string := " ".

Definition get_all_files (root : node) (base_path : string)
           (filetypes : list string) : list string :=
  flat_map
    (fun ftype => Glob.glob root (join base_path ("*." ++ ftype)%string))
    filetypes.

(** [p.split(os.path.sep)[-1]] *)
Definition last_segment (p : string) : string :=
  last (split sep p) EmptyString.

Definition get_originals (all_images : list string) (indicator : string)
  : list string :=
  filter (fun p => negb (contains indicator (last_segment p))) all_images.

(** [pic_path.split(os.path.sep)[-1].split('.')[0]] *)
Definition pic_name_of (pic_path : string) : string :=
  hd EmptyString (split "." (last_segment pic_path)).

(** [pic_path[pic_path.rfind('.')+1:]] *)
Definition filetype_of (pic_path : string) : string :=
  slice_from (rfind "." pic_path + 1) pic_path.

(** the first comprehension of the loop body of [get_dupes]: the
    candidates matched by file name *)
Definition matched_dupes (root : node) (base_path indicator pic_path : string)
  : list string :=
  let pic_name := pic_name_of pic_path in
  let filetype := filetype_of pic_path in
  filter
    (fun p => contains indicator (last_segment p) && endswith p filetype)
    (Glob.glob root (join base_path (pic_name ++ "*")%string)).

(** the second comprehension: the candidates whose digest is the
    original's; a digest that cannot be computed raises *)
Fixpoint verified_dupes (root : node) (original_hash : string)
         (cur_dupes : list string) : outcome (list string) :=
  match cur_dupes with
  | [] => Ok []
  | dupe :: rest =>
      let? h := hash_file root dupe in
      let? kept := verified_dupes root original_hash rest in
      Ok (if String.eqb h original_hash then dupe :: kept else kept)
  end.

(** the loop body of [get_dupes], up to the test on [len(cur_dupes)] *)
Definition cur_dupes_of (root : node) (base_path indicator : string)
           (verify_hashes : bool) (pic_path : string)
  : outcome (list string) :=
  let cur_dupes := matched_dupes root base_path indicator pic_path in
  if verify_hashes then
    let? original_hash := hash_file root pic_path in
    verified_dupes root original_hash cur_dupes
  else Ok cur_dupes.

(** the [for pic_path in originals] loop, [dupes] being the list
    built so far *)
Fixpoint get_dupes_loop (root : node) (base_path : string)
         (originals : list string) (indicator : string)
         (verify_hashes : bool) (dupes : list (list string))
  : outcome (list (list string)) :=
  match originals with
  | [] => Ok dupes
  | pic_path :: rest =>
      let? cur_dupes :=
        cur_dupes_of root base_path indicator verify_hashes pic_path in
      get_dupes_loop root base_path rest indicator verify_hashes
        (if nonempty cur_dupes then dupes ++ [cur_dupes] else dupes)
  end.

Definition get_dupes (root : node) (base_path : string)
           (originals : list string) (indicator : string)
           (verify_hashes : bool) : outcome (list (list string)) :=
  get_dupes_loop root base_path originals indicator verify_hashes [].

(** the inner loop of [remove_dupes], over one duplicate set *)
Fixpoint remove_dupeset (cur_dupeset : list string) (do_del : bool)
  : M unit :=
  match cur_dupeset with
  | [] => ret tt
  | cur_dupe :: rest =>
      print (tab ++ tab ++ cur_dupe)%string ;;
      (if do_del then
         try_except (os_remove cur_dupe) FileNotFoundError
           (print (tab ++ tab ++ "[!] Couldn't find duplicate file: "
                       ++ cur_dupe)%string)
       else ret tt) ;;
      remove_dupeset rest do_del
  end.

Fixpoint remove_dupes (all_dupes : list (list string)) (do_del : bool)
  : M unit :=
  match all_dupes with
  | [] => ret tt
  | cur_dupeset :: rest =>
      print (tab ++ "Removing:")%string ;;
      remove_dupeset cur_dupeset do_del ;;
      remove_dupes rest do_del
  end.

(** [main]; the budget bounds the depth of the recursion into
    subdirectories *)
Fixpoint main (fuel : nat) (base_path : string)
         (recursive verify_hash do_del : bool) : M unit :=
  match fuel with
  | O => out_of_fuel
  | S f =>
      print ("Checking: " ++ base_path)%string ;;
      root_images <-
        lift (fun r => Ok (get_all_files r base_path default_filetypes)) ;;
      let originals := get_originals root_images default_indicator in
      dupes <-
        lift (fun r => get_dupes r base_path originals default_indicator
                         verify_hash) ;;
      (if negb (nonempty dupes)
       then print (tab ++ "No duplicates found")%string
       else ret tt) ;;
      remove_dupes dupes do_del ;;
      if recursive then
        names <- lift (fun r => listdir r base_path) ;;
        dirs <-
          lift (fun r =>
                  Ok (map (join base_path)
                        (filter (fun d => isdir r (join base_path d))
                                names))) ;;
        if nonempty dirs then
          for_each dirs (fun cd => main f cd recursive verify_hash do_del)
        else ret tt
      else ret tt
  end.

End RemoveDupes.

(* ================================================================== *)
(** ** Notions used to state the properties *)

Section Notions.
Context {H : Hasher}.
Import Py Posix.

(** The candidate rule in the words of the specification: the final
    path segment begins with the original's base name, contains the
    marker, and ends with the original's extension. *)
Definition spec_candidate (indicator pic_path p : string) : bool :=
  startswith (last_segment p) (pic_name_of pic_path)
  && contains indicator (last_segment p)
  && endswith (last_segment p) (filetype_of pic_path).

(** the file at [p] can be opened for reading *)
Definition can_open (root : node) (p : string) : Prop :=
  exists content, open_rb root p = Ok content.

(** an entry name as a directory listing gives it: not empty, not
    ["."] or [".."], without a separator *)
Definition wf_name (s : string) : bool :=
  negb (is_empty s) && negb (String.eqb s ".") && negb (String.eqb s "..")
  && negb (mem sep s).

Fixpoint wf_tree (n : node) : bool :=
  match n with
  | File _ _ => true
  | Dir es _ =>
      forallb (fun e => let '(k, v) := e in wf_name k && wf_tree v) es
  end.

(** the depth of the tree under a node *)
Fixpoint height (n : node) : nat :=
  match n with
  | File _ _ => 0
  | Dir es _ =>
      S (fold_right (fun e acc => let '(_, v) := e in Nat.max (height v) acc)
                    0 es)
  end.

(** the depth of the tree under the node a path denotes *)
Definition height_at (root : node) (p : string) : nat :=
  match stat root p with
  | Ok n => height n
  | _ => 0
  end.

(** a pattern-free string: none of [*], [?], [[] *)
Definition plain (s : string) : Prop := Glob.has_magic s = false.

(** the items of a pattern-free text: its characters *)
Fixpoint lits (s : string) : list Fnmatch.item :=
  match s with
  | EmptyString => []
  | String a r => Fnmatch.Lit a :: lits r
  end.

(** the entries of the directory a path denotes, files and
    subdirectories alike, in listing order; the empty path stands for
    the current directory, and what is not a directory has none *)
Definition listing (root : node) (p : string) : list (string * node) :=
  match scandir root p with
  | Ok es => es
  | _ => []
  end.

Definition entries_of (root : node) (base_path : string)
  : list (string * node) :=
  listing root (if is_empty base_path then "." else base_path).

(** the head [posixpath.split] returns for a text ending in a
    separator *)
Definition head_of (h : string) : string :=
  if negb (is_empty h) && negb (all_char sep h) then rstrip sep h else h.

(** the directory part [glob] splits off a pattern built by joining
    [base_path] and a file-name pattern *)
Definition glob_dir (base_path : string) : string :=
  fst (path_split (join base_path "*")).

(** the lines [remove_dupes] prints *)
Definition removing_line : string := (tab ++ "Removing:")%string.
Definition dupe_line (cur_dupe : string) : string :=
  (tab ++ tab ++ cur_dupe)%string.
Definition missing_line (cur_dupe : string) : string :=
  (tab ++ tab ++ "[!] Couldn't find duplicate file: " ++ cur_dupe)%string.
Definition checking_line (base_path : string) : string :=
  ("Checking: " ++ base_path)%string.

(** a path carrying the default marker in its final segment *)
Definition marked (q : string) : Prop :=
  contains default_indicator (last_segment q) = true.

(** the originals [main] hands to [get_dupes] for a directory *)
Definition originals_of (root : node) (base_path : string) : list string :=
  get_originals (get_all_files root base_path default_filetypes)
                default_indicator.

(** a computation keeps an invariant of the state *)
Definition preserves {A : Type} (I : world -> Prop) (m : M A) : Prop :=
  forall w, I w -> I (fst (m w)).

(** on the file system [root], a computation leaves the tree as it
    is and does not exhaust its budget *)
Definition harmless {A : Type} (root : node) (m : M A) : Prop :=
  forall w, fs w = root -> fs (fst (m w)) = root /\ snd (m w) <> OutOfFuel.

(** a computation neither reads nor rewrites what was printed and
    attempted before it: it only appends *)
Definition framed {A : Type} (m : M A) : Prop :=
  forall root out ul,
    m (mkWorld root out ul)
    = let '(w', r) := m (mkWorld root [] []) in
      (mkWorld (fs w') (out ++ stdout w') (ul ++ unlinks w'), r).

(** what a run added to the printed lines, given the lines before *)
Definition report (before after : world) : list string :=
  skipn (length (stdout before)) (stdout after).

(** the deletion attempts a run added *)
Definition attempts (before after : world) : list string :=
  skipn (length (unlinks before)) (unlinks after).

End Notions.

(* ================================================================== *)
(** ** The entry point: [do_verify] and the [__main__] block

    [parse_cla] hands the command line to [argparse]; its result, the
    namespace [opt], is taken as given.  The ten-second wait of
    [do_verify] is not timed: what is modelled of it is whether CTRL+C
    arrives while the script waits. *)

Section EntryPoint.
Context {H : Hasher}.
Import Py Posix.

(** the namespace [parse_cla] returns *)
Record options : Type := mkOptions {
  opt_base_path : string;     (* [--base_path], required *)
  opt_recursive : bool;       (* [--recursive] *)
  opt_verify : bool;          (* [--verify] *)
  opt_run : bool;             (* [--run] *)
  opt_skip_check : bool       (* [--skip_check] *)
}.

(** how a part of the script hands over: it returns, or [sys.exit()]
    ends the process *)
Inductive flow : Type :=
| Continue
| SystemExit.

(** how the script ends: [main] returned or raised, or the process
    exited before [main] *)
Inductive ending : Type :=
| Ran (r : outcome unit)
| Exited.

(** the line feed, written in the script as a backslash and [n] *)
Definition nl : string := String (ascii_of_nat 10) EmptyString.

(** the double quote, for the lines that quote the flag *)
Definition dq : string := String (ascii_of_nat 34) EmptyString.

Definition warning_lines (do_del : bool) : list string :=
  if do_del then
    ["[!] Warning, you are about to remove files from your system, these files are irrecoverable by this program";
     ("[!] If you wish to only view potential removals, run the script again without the "
        ++ dq ++ "--run" ++ dq ++ " flag")%string]
  else
    ["[*] You are running the script in a mode which does not remove files, only prints them to stdout";
     ("[*] If you are sure you wish to remove files, run the script again with the "
        ++ dq ++ "--run" ++ dq ++ " flag")%string].

Definition waiting_line : string :=
  "[*] Waiting 10 seconds before continuing execution, use CTRL+C to stop script".

Definition interrupt_line : string :=
  (nl ++ "Keyboard Interrupt received, stopping script execution")%string.

(** [do_verify(do_del)]; [interrupted] tells whether [KeyboardInterrupt]
    is raised by [time.sleep(10)] *)
Definition do_verify (do_del interrupted : bool) (w : world) : world * flow :=
  let w1 := fst (for_each (warning_lines do_del) print w) in
  let w2 := fst (print waiting_line w1) in
  if interrupted then (fst (print interrupt_line w2), SystemExit)
  else (w2, Continue).

(** the [if __name__ == "__main__"] block, from the parsed options on *)
Definition script (fuel : nat) (opt : options) (interrupted : bool)
           (w : world) : world * ending :=
  let (w1, f) :=
    if negb (opt_skip_check opt) then do_verify (opt_run opt) interrupted w
    else (w, Continue) in
  match f with
  | SystemExit => (w1, Exited)
  | Continue =>
      let (w2, r) :=
        main fuel (opt_base_path opt) (opt_recursive opt) (opt_verify opt)
             (opt_run opt) w1 in
      (w2, Ran r)
  end.

(** a hash object whose state after an update depends on the bytes fed
    so far, not on how they were cut into updates *)
Definition streaming : Prop :=
  (forall h, sha1_update h [] = h)
  /\ (forall h a b,
         sha1_update h (a ++ b) = sha1_update (sha1_update h a) b).

(** the Content Digest of a file: the digest of a fresh hash object fed
    the bytes of the file *)
Definition content_digest (content : list byte) : string :=
  sha1_hexdigest (sha1_update sha1_new content).

End EntryPoint.

(* ================================================================== *)
(** ** Sample data *)

Module Samples.
Import Posix.

(** a hash object for the samples: the digest spells out the bytes
    fed to it, so two digests agree exactly when the contents do *)
Definition spelling_hasher : Hasher :=
  {| hstate := list byte;
     sha1_new := [];
     sha1_update := @app byte;
     sha1_hexdigest := string_of_list_byte |}.

Definition file (content : list byte) : node := File content true.

(** [cat.jpg] with a true copy and [dog.png] with a false one *)
Definition pets : node :=
  Dir [("pics",
        Dir [("cat.jpg", file [x41; x42]);
             ("cat (1).jpg", file [x41; x42]);
             ("dog.png", file [x43]);
             ("dog (1).png", file [x44])] true)] true.

(** two originals, the base name of one a prefix of the other's *)
Definition prefixed : node :=
  Dir [("pics",
        Dir [("photo.jpg", file [x41]);
             ("photo2.jpg", file [x42]);
             ("photo2 (1).jpg", file [x42])] true)] true.

(** a subdirectory named like a picture *)
Definition album : node :=
  Dir [("pics",
        Dir [("album.jpg", Dir [("inner.txt", file [x41])] true);
             ("cat.jpg", file [x41])] true)] true.

(** file names with pattern characters in them *)
Definition bracketed : node :=
  Dir [("pics",
        Dir [("IMG[1].jpg", file [x41]);
             ("IMG[1] (1).jpg", file [x41]);
             ("a*.jpg", file [x42]);
             ("ab (1).jpg", file [x43])] true)] true.

(** a copy the process may not read, one in a directory it may not
    change, and a directory carrying the marker *)
Definition guarded : node :=
  Dir [("locked",
        Dir [("cat.jpg", file [x41]);
             ("cat (1).jpg", file [x41])] false);
       ("secret",
        Dir [("cat.jpg", file [x41]);
             ("cat (1).jpg", File [x41] false)] true);
       ("nested",
        Dir [("cat.jpg", file [x41]);
             ("cat (1).jpg", Dir [] true);
             ("cat (2).jpg", file [x41])] true)] true.

Definition start (root : node) : world := mkWorld root [] [].

(** a directory with a subdirectory holding its own pair *)
Definition nested_tree : node :=
  Dir [("top",
        Dir [("bird.gif", file [x41]);
             ("sub",
              Dir [("bird.gif", file [x42]);
                   ("bird (1).gif", file [x42])] true)] true)] true.

End Samples.

(* ================================================================== *)
(** * Properties *)

(** ** Strings *)

Section StringFacts.
Import Py.

Lemma eqb_ascii_refl (a : ascii) : Ascii.eqb a a = true.
Proof. apply Ascii.eqb_refl. Qed.

Lemma startswith_empty (s : string) : startswith s "" = true.
Proof. now destruct s. Qed.

Lemma split_not_nil (c : ascii) (s : string) : split c s <> [].
Proof.
  destruct s as [|a r]; simpl; [discriminate|].
  destruct (Ascii.eqb a c); [discriminate|].
  destruct (split c r); discriminate.
Qed.

Lemma split_app_sep (c : ascii) (a b : string) :
  split c (a ++ String c b) = split c a ++ split c b.
Proof.
  induction a as [|x a IH]; simpl.
  - now rewrite eqb_ascii_refl.
  - destruct (Ascii.eqb x c); [now rewrite IH|].
    rewrite IH.
    destruct (split c a) as [|h t] eqn:E; [now apply split_not_nil in E|].
    reflexivity.
Qed.

Lemma split_no_sep (c : ascii) (s : string) :
  mem c s = false -> split c s = [s].
Proof.
  induction s as [|a r IH]; simpl; [reflexivity|].
  intros Hm. apply orb_false_iff in Hm as [Ha Hr].
  rewrite Ha, (IH Hr). reflexivity.
Qed.

Lemma last_app_r {A : Type} (l1 l2 : list A) (d : A) :
  l2 <> [] -> last (l1 ++ l2) d = last l2 d.
Proof.
  intros Hne. induction l1 as [|x l1 IH]; simpl; [reflexivity|].
  destruct (l1 ++ l2) eqn:E; [|exact IH].
  apply app_eq_nil in E as [_ E]. contradiction.
Qed.

End StringFacts.

(** ** The classifier *)

Section Classifier.
Import Py Posix.

Lemma last_segment_after_sep (d rest : string) :
  last_segment (d ++ String sep rest) = last_segment rest.
Proof.
  unfold last_segment. rewrite split_app_sep.
  apply last_app_r, split_not_nil.
Qed.

(** C4. [get_originals] keeps a discovered path exactly when the
    marker does not occur in its final path segment; whatever stands
    before the last separator plays no part in the test, so a path
    whose final segment carries the marker is never an original. *)
Theorem get_originals_by_final_segment
        (all_images : list string) (indicator p : string) :
  (In p (get_originals all_images indicator)
   <-> In p all_images /\ contains indicator (last_segment p) = false)
  /\ (forall d rest : string,
         last_segment (d ++ String sep rest) = last_segment rest)
  /\ (contains indicator (last_segment p) = true ->
      ~ In p (get_originals all_images indicator)).
Proof.
  assert (Hiff : In p (get_originals all_images indicator)
                 <-> In p all_images
                     /\ contains indicator (last_segment p) = false).
  { unfold get_originals. rewrite filter_In, negb_true_iff. tauto. }
  split; [exact Hiff|]. split; [exact last_segment_after_sep|].
  intros Hc Hin. apply Hiff in Hin as [_ Hn]. congruence.
Qed.

Lemma get_originals_by_final_segment_witness :
  contains " " (last_segment "my pics/cat (1).jpg") = true
  /\ ~ In "my pics/cat (1).jpg"
          (get_originals ["my pics/cat.jpg"; "my pics/cat (1).jpg"] " ")
  /\ In "my pics/cat.jpg"
        (get_originals ["my pics/cat.jpg"; "my pics/cat (1).jpg"] " ").
Proof.
  split; [reflexivity|]. split.
  - apply (get_originals_by_final_segment
             ["my pics/cat.jpg"; "my pics/cat (1).jpg"] " "
             "my pics/cat (1).jpg"). reflexivity.
  - simpl. auto.
Defined.

End Classifier.

(** ** Path resolution never exhausts a budget *)

Section Totality.
Context {H : Hasher}.
Import Py Posix.

Lemma step_total (root : node) (cp : list string) (seg : string) :
  step root cp seg <> OutOfFuel.
Proof.
  unfold step.
  destruct (get root cp) as [[c r|es w]|]; try discriminate.
  destruct (is_empty seg || String.eqb seg "."); [discriminate|].
  destruct (String.eqb seg ".."); [discriminate|].
  destruct (get root (cp ++ [seg])); discriminate.
Qed.

Lemma walk_total (root : node) (segs : list string) :
  forall cp, walk root cp segs <> OutOfFuel.
Proof.
  induction segs as [|seg rest IH]; intros cp; simpl; [discriminate|].
  destruct (step root cp seg) eqn:E; simpl; auto; try discriminate.
  now apply step_total in E.
Qed.

Lemma stat_total (root : node) (p : string) : stat root p <> OutOfFuel.
Proof.
  unfold stat, resolve.
  destruct (is_empty p); simpl; [discriminate|].
  destruct (walk root [] (split sep p)) eqn:E; simpl; try discriminate.
  - destruct (get root a); discriminate.
  - now apply walk_total in E.
Qed.

Lemma open_rb_total (root : node) (p : string) : open_rb root p <> OutOfFuel.
Proof.
  unfold open_rb. destruct (stat root p) as [[c [|]|es w]| |] eqn:E;
    simpl; try discriminate.
  now apply stat_total in E.
Qed.

Lemma chunk_size_pos : 0 < chunk_size.
Proof. unfold chunk_size. lia. Qed.

(** the reading loop ends within one round per byte, and one more *)
Lemma read_loop_total (fuel : nat) :
  forall (h : hstate) (rest : list byte),
    length rest < fuel -> exists h', read_loop fuel h rest = Ok h'.
Proof.
  induction fuel as [|f IH]; intros h rest Hlen; [lia|].
  cbn [read_loop].
  destruct (firstn chunk_size rest) as [|b chunk] eqn:E; [eauto|].
  apply IH. rewrite length_skipn.
  destruct rest as [|b' rest']; [now rewrite firstn_nil in E|].
  pose proof chunk_size_pos. simpl in *. lia.
Qed.

Lemma hash_file_opened (root : node) (p : string) (content : list byte) :
  open_rb root p = Ok content -> exists d, hash_file root p = Ok d.
Proof.
  intros Ho. unfold hash_file. rewrite Ho. cbn [obind].
  destruct (read_loop_total (S (length content)) sha1_new content) as [h' Hh];
    [lia|].
  rewrite Hh. cbn [obind]. eauto.
Qed.

Lemma hash_file_unopened (root : node) (p : string) (e : exn) :
  open_rb root p = Raise e -> hash_file root p = Raise e.
Proof. intros Ho. unfold hash_file. now rewrite Ho. Qed.

Lemma hash_file_total (root : node) (p : string) :
  hash_file root p <> OutOfFuel.
Proof.
  destruct (open_rb root p) as [content|e|] eqn:E.
  - destruct (hash_file_opened _ _ _ E) as [d ->]. discriminate.
  - rewrite (hash_file_unopened _ _ _ E). discriminate.
  - now apply open_rb_total in E.
Qed.

Lemma verified_dupes_total (root : node) (oh : string) (l : list string) :
  verified_dupes root oh l <> OutOfFuel.
Proof.
  induction l as [|c l IH]; simpl; [discriminate|].
  destruct (hash_file root c) eqn:E; simpl; try discriminate.
  - destruct (verified_dupes root oh l); simpl; try discriminate. exact IH.
  - now apply hash_file_total in E.
Qed.

Lemma cur_dupes_of_total (root : node) (bp ind : string) (v : bool)
      (o : string) :
  cur_dupes_of root bp ind v o <> OutOfFuel.
Proof.
  unfold cur_dupes_of. destruct v; [|discriminate].
  destruct (hash_file root o) eqn:E; simpl; try discriminate.
  - apply verified_dupes_total.
  - now apply hash_file_total in E.
Qed.

Lemma get_dupes_loop_total (root : node) (bp ind : string) (v : bool)
      (originals : list string) :
  forall acc, get_dupes_loop root bp originals ind v acc <> OutOfFuel.
Proof.
  induction originals as [|o rest IH]; intros acc; simpl; [discriminate|].
  destruct (cur_dupes_of root bp ind v o) eqn:E; simpl; try discriminate.
  - apply IH.
  - now apply cur_dupes_of_total in E.
Qed.

End Totality.

(** ** The resolver *)

Section Resolver.
Context {H : Hasher}.
Import Py Posix.

Variable root : node.
Variables base_path indicator : string.

(** the loop of [get_dupes] appends, to the sets built so far, the
    non-empty sets of the originals in turn *)
Lemma get_dupes_loop_spec (verify : bool) (originals : list string) :
  forall acc dupes,
    get_dupes_loop root base_path originals indicator verify acc = Ok dupes ->
    exists sets,
      Forall2 (fun o s => cur_dupes_of root base_path indicator verify o = Ok s)
              originals sets
      /\ dupes = acc ++ filter nonempty sets.
Proof.
  induction originals as [|o rest IH]; intros acc dupes Hrun; simpl in Hrun.
  - exists []. split; [constructor|].
    injection Hrun as <-. now rewrite app_nil_r.
  - destruct (cur_dupes_of root base_path indicator verify o) as [cur| |] eqn:E;
      simpl in Hrun; try discriminate.
    apply IH in Hrun as (sets & Hsets & ->).
    exists (cur :: sets). split; [now constructor|].
    destruct cur; simpl; [reflexivity|]. now rewrite <- app_assoc.
Qed.

Lemma get_dupes_loop_raise (verify : bool) (originals : list string) :
  forall acc o e,
    In o originals ->
    cur_dupes_of root base_path indicator verify o = Raise e ->
    exists e', get_dupes_loop root base_path originals indicator verify acc
               = Raise e'.
Proof.
  induction originals as [|x rest IH]; intros acc o e Hin Ho; [contradiction|].
  simpl.
  destruct (cur_dupes_of root base_path indicator verify x) as [cur|e0|] eqn:E;
    simpl.
  - destruct Hin as [->|Hin]; [congruence|]. eapply IH; eauto.
  - eauto.
  - now apply cur_dupes_of_total in E.
Qed.

(** C8. The list [get_dupes] returns is made of the candidate sets of
    the originals, in order, the empty ones left out: it holds no empty
    set, and an original whose (matched, and when asked verified) set is
    empty adds no entry. *)
Theorem get_dupes_no_empty_set
        (verify : bool) (originals : list string) (dupes : list (list string)) :
  get_dupes root base_path originals indicator verify = Ok dupes ->
  Forall (fun s => s <> []) dupes
  /\ exists sets,
      Forall2 (fun o s => cur_dupes_of root base_path indicator verify o = Ok s)
              originals sets
      /\ dupes = filter nonempty sets.
Proof.
  intros Hrun. apply get_dupes_loop_spec in Hrun as (sets & Hsets & ->).
  simpl. split; [|eauto].
  apply Forall_forall. intros s Hs. apply filter_In in Hs as [_ Hs].
  destruct s; [discriminate|discriminate].
Qed.

Lemma verified_dupes_spec (oh : string) (l : list string) :
  (forall c, In c l -> can_open root c) ->
  exists kept,
    verified_dupes root oh l = Ok kept
    /\ forall c, In c kept <-> In c l /\ hash_file root c = Ok oh.
Proof.
  induction l as [|x l IH]; intros Hopen.
  - exists []. split; [reflexivity|]. simpl. tauto.
  - destruct IH as (kept & Hk & Hiff); [intros; apply Hopen; now right|].
    destruct (Hopen x (or_introl eq_refl)) as [content Hc].
    destruct (hash_file_opened _ _ _ Hc) as [d Hd].
    simpl. rewrite Hd, Hk. cbn [obind].
    destruct (String.eqb d oh) eqn:Ed; eexists; (split; [reflexivity|]).
    + apply String.eqb_eq in Ed. subst d. intros c. simpl. rewrite Hiff.
      split.
      * intros [<-|[? ?]]; auto.
      * intros [[<-|?] ?]; auto.
    + apply String.eqb_neq in Ed. intros c. rewrite Hiff. simpl. split.
      * intros [? ?]; auto.
      * intros [[<-|?] ?]; auto. congruence.
Qed.

Lemma verified_dupes_raise (oh : string) (l : list string) (c : string)
      (e : exn) :
  In c l -> hash_file root c = Raise e ->
  exists e', verified_dupes root oh l = Raise e'.
Proof.
  induction l as [|x l IH]; intros Hin Hc; [contradiction|]. simpl.
  destruct (hash_file root x) as [d|e0|] eqn:Ex; simpl.
  - destruct Hin as [->|Hin]; [congruence|].
    destruct (IH Hin Hc) as [e' ->]. simpl. eauto.
  - eauto.
  - now apply hash_file_total in Ex.
Qed.

Lemma cur_dupes_of_raise (pic_path : string) (e : exn) :
  (open_rb root pic_path = Raise e
   \/ exists c, In c (matched_dupes root base_path indicator pic_path)
                /\ open_rb root c = Raise e) ->
  exists e', cur_dupes_of root base_path indicator true pic_path = Raise e'.
Proof.
  intros Hfail. unfold cur_dupes_of.
  destruct (hash_file root pic_path) as [oh|e0|] eqn:Eo; simpl.
  - destruct Hfail as [Ho|(c & Hin & Hc)].
    + apply hash_file_unopened in Ho. congruence.
    + eapply verified_dupes_raise; eauto using hash_file_unopened.
  - eauto.
  - now apply hash_file_total in Eo.
Qed.

End Resolver.

(** ** The remover *)

Section Remover.
Context {H : Hasher}.
Import Py Posix.

Lemma bind_ok {A B : Type} (m : M A) (k : A -> M B) (w w' : world) (a : A) :
  m w = (w', Ok a) -> bind m k w = k a w'.
Proof. intros E. unfold bind. now rewrite E. Qed.

Lemma bind_raise {A B : Type} (m : M A) (k : A -> M B) (w w' : world)
      (e : exn) :
  m w = (w', Raise e) -> bind m k w = (w', Raise e).
Proof. intros E. unfold bind. now rewrite E. Qed.

Lemma bind_out_of_fuel {A B : Type} (m : M A) (k : A -> M B) (w w' : world) :
  m w = (w', OutOfFuel) -> bind m k w = (w', OutOfFuel).
Proof. intros E. unfold bind. now rewrite E. Qed.

Lemma print_run (line : string) (w : world) :
  print line w = (mkWorld (fs w) (stdout w ++ [line]) (unlinks w), Ok tt).
Proof. reflexivity. Qed.

Lemma exn_eqb_eq (a b : exn) : exn_eqb a b = true <-> a = b.
Proof. destruct a, b; simpl; split; congruence. Qed.

(** one round of the inner loop, in commit mode *)
Lemma remove_dupeset_cons (cur_dupe : string) (rest : list string) (w : world) :
  remove_dupeset (cur_dupe :: rest) true w
  = match os_remove cur_dupe (fst (print (dupe_line cur_dupe) w)) with
    | (w', Ok _) => remove_dupeset rest true w'
    | (w', Raise e) =>
        if exn_eqb e FileNotFoundError
        then remove_dupeset rest true (fst (print (missing_line cur_dupe) w'))
        else (w', Raise e)
    | (w', OutOfFuel) => (w', OutOfFuel)
    end.
Proof.
  cbn [remove_dupeset]. unfold bind at 1. rewrite print_run. cbn [fst].
  unfold bind at 1. unfold try_except.
  fold (dupe_line cur_dupe) (missing_line cur_dupe).
  destruct (os_remove cur_dupe _) as [w' [[]|e|]]; try reflexivity.
  destruct (exn_eqb e FileNotFoundError); reflexivity.
Qed.

Lemma remove_dupes_cons (set : list string) (more : list (list string))
      (w : world) :
  remove_dupes (set :: more) true w
  = match remove_dupeset set true (fst (print removing_line w)) with
    | (w', Ok _) => remove_dupes more true w'
    | (w', Raise e) => (w', Raise e)
    | (w', OutOfFuel) => (w', OutOfFuel)
    end.
Proof.
  cbn [remove_dupes]. unfold bind at 1. rewrite print_run. cbn [fst].
  unfold bind at 1. fold removing_line.
  destruct (remove_dupeset set true _) as [w' [[]|e|]]; reflexivity.
Qed.

(** [main], up to the call of [remove_dupes] *)
Lemma main_until_remove (f : nat) (bp : string) (rec v d : bool) (w : world)
      (dupes : list (list string)) (w' : world) (e : exn) :
  get_dupes (fs w) bp (originals_of (fs w) bp) default_indicator v = Ok dupes ->
  remove_dupes dupes d (fst (print (checking_line bp) w)) = (w', Raise e) ->
  main (S f) bp rec v d w = (w', Raise e).
Proof.
  intros Hd Hr. cbn [main]. unfold bind at 1. rewrite print_run.
  unfold bind at 1. unfold lift at 1. unfold bind at 1. unfold lift at 1.
  cbn [fs]. fold (originals_of (fs w) bp). rewrite Hd.
  destruct dupes as [|s more].
  - simpl in Hr. discriminate.
  - cbn [nonempty negb]. unfold bind at 1. unfold ret at 1. unfold bind at 1.
    rewrite print_run in Hr. cbn [fst] in Hr.
    fold (checking_line bp). now rewrite Hr.
Qed.

Lemma remove_dupeset_app (done rest : list string) :
  forall w w2,
    remove_dupeset done true w = (w2, Ok tt) ->
    remove_dupeset (done ++ rest) true w = remove_dupeset rest true w2.
Proof.
  induction done as [|p done IH]; intros w w2 Hdone.
  - cbn in Hdone. injection Hdone as <-. reflexivity.
  - cbn [app]. rewrite remove_dupeset_cons in *.
    destruct (os_remove p _) as [w' [[]|e|]]; try discriminate; auto.
    destruct (exn_eqb e FileNotFoundError); [auto|discriminate].
Qed.

Lemma remove_dupes_app (before rest : list (list string)) :
  forall w w1,
    remove_dupes before true w = (w1, Ok tt) ->
    remove_dupes (before ++ rest) true w = remove_dupes rest true w1.
Proof.
  induction before as [|set before IH]; intros w w1 Hbefore.
  - cbn in Hbefore. injection Hbefore as <-. reflexivity.
  - cbn [app]. rewrite remove_dupes_cons in *.
    destruct (remove_dupeset set true _) as [w' [[]|e|]]; try discriminate.
    auto.
Qed.

Lemma for_each_app {A : Type} (body : A -> M unit) (l1 l2 : list A) :
  forall w w1,
    for_each l1 body w = (w1, Ok tt) ->
    for_each (l1 ++ l2) body w = for_each l2 body w1.
Proof.
  induction l1 as [|x l1 IH]; intros w w1 Hl1.
  - cbn in Hl1. injection Hl1 as <-. reflexivity.
  - cbn [app for_each] in *. unfold bind at 1 in Hl1. unfold bind at 1.
    destruct (body x w) as [w' [[]|e|]]; try discriminate. auto.
Qed.

(** a recursive [main] is the non-recursive one followed by the runs on
    the subdirectories *)
Lemma main_recursion (f : nat) (bp : string) (v d : bool) (w0 w2 : world) :
  main (S f) bp false v d w0 = (w2, Ok tt) ->
  main (S f) bp true v d w0
  = match listdir (fs w2) bp with
    | Ok names =>
        let dirs :=
          map (join bp) (filter (fun x => isdir (fs w2) (join bp x)) names) in
        if nonempty dirs
        then for_each dirs (fun cd => main f cd true v d) w2
        else (w2, Ok tt)
    | Raise e => (w2, Raise e)
    | OutOfFuel => (w2, OutOfFuel)
    end.
Proof.
  cbn [main]. intros Hown.
  unfold bind at 1 in Hown. unfold bind at 1. rewrite print_run in *.
  unfold bind at 1, lift at 1 in Hown. unfold bind at 1, lift at 1.
  unfold bind at 1, lift at 1 in Hown. unfold bind at 1, lift at 1.
  destruct (get_dupes _ bp _ default_indicator v) as [dupes| |];
    try discriminate.
  unfold bind at 1 in Hown. unfold bind at 1.
  destruct ((if negb (nonempty dupes)
             then print (tab ++ "No duplicates found") else ret tt) _)
    as [wa [[]|e|]]; try discriminate.
  unfold bind at 1 in Hown. unfold bind at 1.
  destruct (remove_dupes dupes d wa) as [wb [[]|e|]]; try discriminate.
  unfold ret in Hown. injection Hown as <-.
  unfold bind at 1, lift at 1.
  destruct (listdir (fs wb) bp) as [names| |]; try reflexivity.
  unfold bind at 1, lift at 1. cbv zeta.
  now destruct (nonempty _).
Qed.

(** C3. In commit mode, for a file at any place of any set -- the sets
    before it and the files before it in its set having been processed
    -- a deletion that fails because the file is not there is reported
    and the run goes on with the remaining files of the set and the
    remaining sets; a deletion failing in any other way ends
    [remove_dupes] there with that error, and with it [main]; and an
    error ending the run of a subdirectory ends the run of its parent,
    the remaining subdirectories left alone. *)
Theorem deletion_missing_tolerated_others_fatal
        (before : list (list string)) (done : list string)
        (cur_dupe : string) (rest : list string)
        (after : list (list string)) (w w1 w2 w3 : world) (e : exn) :
  remove_dupes before true w = (w1, Ok tt) ->
  remove_dupeset done true (fst (print removing_line w1)) = (w2, Ok tt) ->
  os_remove cur_dupe (fst (print (dupe_line cur_dupe) w2)) = (w3, Raise e) ->
  let all_dupes := before ++ (done ++ cur_dupe :: rest) :: after in
  (e = FileNotFoundError ->
   remove_dupes all_dupes true w
   = bind (remove_dupeset rest true) (fun _ => remove_dupes after true)
          (fst (print (missing_line cur_dupe) w3)))
  /\ (e <> FileNotFoundError ->
      remove_dupes all_dupes true w = (w3, Raise e)
      /\ forall f bp rec v w0,
          get_dupes (fs w0) bp (originals_of (fs w0) bp) default_indicator v
          = Ok all_dupes ->
          w = fst (print (checking_line bp) w0) ->
          main (S f) bp rec v true w0 = (w3, Raise e))
  /\ (forall f bp v d w0 wa names dirs_done cd dirs_left wb wc e1,
         main (S f) bp false v d w0 = (wa, Ok tt) ->
         listdir (fs wa) bp = Ok names ->
         map (join bp) (filter (fun x => isdir (fs wa) (join bp x)) names)
         = dirs_done ++ cd :: dirs_left ->
         for_each dirs_done (fun c => main f c true v d) wa = (wb, Ok tt) ->
         main f cd true v d wb = (wc, Raise e1) ->
         main (S f) bp true v d w0 = (wc, Raise e1)).
Proof.
  intros Hbefore Hdone Hrm all_dupes.
  assert (Hhere : remove_dupes all_dupes true w
                  = match remove_dupeset (cur_dupe :: rest) true w2 with
                    | (w', Ok _) => remove_dupes after true w'
                    | (w', Raise e') => (w', Raise e')
                    | (w', OutOfFuel) => (w', OutOfFuel)
                    end).
  { unfold all_dupes. rewrite (remove_dupes_app _ _ _ _ Hbefore).
    rewrite remove_dupes_cons. now rewrite (remove_dupeset_app _ _ _ _ Hdone). }
  rewrite remove_dupeset_cons, Hrm in Hhere.
  split; [|split].
  - intros ->. rewrite Hhere. cbn [exn_eqb]. unfold bind.
    now destruct (remove_dupeset rest true _) as [w' [[]|e'|]].
  - intros Hne.
    assert (Hraise : remove_dupes all_dupes true w = (w3, Raise e)).
    { rewrite Hhere. destruct (exn_eqb e FileNotFoundError) eqn:E;
        [now apply exn_eqb_eq in E|reflexivity]. }
    split; [exact Hraise|].
    intros f bp rec v w0 Hd ->. eapply main_until_remove; eauto.
  - intros f bp v d w0 wa names dirs_done cd dirs_left wb wc e1
           Hown Hls Hdirs Hdone' Hcd.
    rewrite (main_recursion f bp v d w0 wa Hown), Hls. cbv zeta.
    rewrite Hdirs. replace (nonempty (dirs_done ++ cd :: dirs_left)) with true
      by now destruct dirs_done.
    rewrite (for_each_app _ _ _ _ _ Hdone'). cbn [for_each].
    unfold bind. now rewrite Hcd.
Qed.

End Remover.

Lemma get_dupes_no_empty_set_witness :
  Forall (fun s : list string => s <> [])
         [["pics/cat (1).jpg"]; ["pics/dog (1).png"]].
Proof.
  apply (@get_dupes_no_empty_set Samples.spelling_hasher Samples.pets "pics"
           default_indicator false (originals_of Samples.pets "pics")
           [["pics/cat (1).jpg"]; ["pics/dog (1).png"]]).
  vm_compute. reflexivity.
Defined.

Lemma deletion_missing_tolerated_others_fatal_witness :
  let all_dupes :=
    [["nested/cat (2).jpg"];
     ["nested/gone.jpg"; "locked/cat (1).jpg"; "secret/cat.jpg"];
     ["secret/cat (1).jpg"]] in
  let run := remove_dupes all_dupes true (Samples.start Samples.guarded) in
  snd run = Raise PermissionError
  /\ unlinks (fst run)
     = ["nested/cat (2).jpg"; "nested/gone.jpg"; "locked/cat (1).jpg"]
  /\ remove_dupes [["nested/gone.jpg"; "nested/cat (2).jpg"]] true
                  (Samples.start Samples.guarded)
     = bind (remove_dupeset ["nested/cat (2).jpg"] true)
            (fun _ => remove_dupes [] true)
            (mkWorld Samples.guarded
                     [removing_line; dupe_line "nested/gone.jpg";
                      missing_line "nested/gone.jpg"]
                     ["nested/gone.jpg"]).
Proof.
  cbv zeta.
  pose (w := Samples.start Samples.guarded).
  pose (w1 := fst (remove_dupes [["nested/cat (2).jpg"]] true w)).
  pose (w2 := fst (remove_dupeset ["nested/gone.jpg"] true
                                  (fst (print removing_line w1)))).
  pose (w3 := fst (os_remove "locked/cat (1).jpg"
                             (fst (print (dupe_line "locked/cat (1).jpg") w2)))).
  assert (H1 : remove_dupes [["nested/cat (2).jpg"]] true w = (w1, Ok tt))
    by (vm_compute; reflexivity).
  assert (H2 : remove_dupeset ["nested/gone.jpg"] true
                              (fst (print removing_line w1)) = (w2, Ok tt))
    by (vm_compute; reflexivity).
  assert (H3 : os_remove "locked/cat (1).jpg"
                         (fst (print (dupe_line "locked/cat (1).jpg") w2))
               = (w3, Raise PermissionError))
    by (vm_compute; reflexivity).
  pose proof (@deletion_missing_tolerated_others_fatal
                Samples.spelling_hasher
                [["nested/cat (2).jpg"]] ["nested/gone.jpg"]
                "locked/cat (1).jpg" ["secret/cat.jpg"]
                [["secret/cat (1).jpg"]] w w1 w2 w3 PermissionError
                H1 H2 H3) as (_ & Hfatal & _).
  destruct Hfatal as [Hraise _]; [discriminate|].
  cbn [app] in Hraise. fold w. rewrite Hraise.
  split; [reflexivity|]. split; [vm_compute; reflexivity|].
  pose (m3 := mkWorld Samples.guarded
                      [removing_line; dupe_line "nested/gone.jpg"]
                      ["nested/gone.jpg"]).
  assert (H4 : remove_dupes [] true w = (w, Ok tt)) by reflexivity.
  assert (H5 : remove_dupeset [] true (fst (print removing_line w))
               = (fst (print removing_line w), Ok tt)) by reflexivity.
  assert (H6 : os_remove "nested/gone.jpg"
                         (fst (print (dupe_line "nested/gone.jpg")
                                     (fst (print removing_line w))))
               = (m3, Raise FileNotFoundError))
    by (vm_compute; reflexivity).
  pose proof (@deletion_missing_tolerated_others_fatal
                Samples.spelling_hasher
                [] [] "nested/gone.jpg" ["nested/cat (2).jpg"] []
                w w (fst (print removing_line w)) m3 FileNotFoundError
                H4 H5 H6) as (Hmissing & _).
  cbn [app] in Hmissing. exact (Hmissing eq_refl).
Defined.

(** ** Invariants of the state along a run *)

Section Preservation.
Context {H : Hasher}.
Import Py Posix.

Variable I : world -> Prop.
Hypothesis I_print : forall line w, I w -> I (fst (print line w)).

Lemma preserves_ret {A : Type} (a : A) : preserves I (ret a).
Proof. intros w Hw. exact Hw. Qed.

Lemma preserves_lift {A : Type} (f : node -> outcome A) : preserves I (lift f).
Proof. intros w Hw. exact Hw. Qed.

Lemma preserves_out_of_fuel {A : Type} : preserves I (@out_of_fuel A).
Proof. intros w Hw. exact Hw. Qed.

Lemma preserves_print (line : string) : preserves I (print line).
Proof. intros w Hw. now apply I_print. Qed.

Lemma preserves_bind {A B : Type} (m : M A) (k : A -> M B) :
  preserves I m -> (forall a, preserves I (k a)) -> preserves I (bind m k).
Proof.
  intros Hm Hk w Hw. specialize (Hm w Hw). unfold bind.
  destruct (m w) as [w' [a|e|]]; simpl in *; auto. now apply Hk.
Qed.

Lemma preserves_bind_lift {A B : Type} (f : node -> outcome A) (k : A -> M B) :
  (forall root a, f root = Ok a -> preserves I (k a)) ->
  preserves I (bind (lift f) k).
Proof.
  intros Hk w Hw. unfold bind, lift.
  destruct (f (fs w)) as [a|e|] eqn:E; simpl; auto.
  now apply (Hk (fs w) a E).
Qed.

Lemma preserves_try_except {A : Type} (m handler : M A) (e : exn) :
  preserves I m -> preserves I handler -> preserves I (try_except m e handler).
Proof.
  intros Hm Hh w Hw. specialize (Hm w Hw). unfold try_except.
  destruct (m w) as [w' [a|e'|]]; simpl in *; auto.
  destruct (exn_eqb e' e); simpl; auto.
Qed.

Lemma preserves_for_each {A : Type} (l : list A) (body : A -> M unit) :
  (forall x, In x l -> preserves I (body x)) -> preserves I (for_each l body).
Proof.
  induction l as [|x l IH]; intros Hbody; simpl.
  - apply preserves_ret.
  - apply preserves_bind; [apply Hbody; now left|].
    intros _. apply IH. intros y Hy. apply Hbody. now right.
Qed.

(** the paths the invariant allows [os.remove] to be called on, when a
    run deletes at all *)
Variable do_del : bool.
Variable allowed : string -> Prop.
Hypothesis I_remove :
  do_del = true ->
  forall p w, allowed p -> I w -> I (fst (os_remove p w)).

Lemma preserves_remove_dupeset (set : list string) :
  Forall allowed set -> preserves I (remove_dupeset set do_del).
Proof.
  induction 1 as [|p set Hp Hset IH]; cbn [remove_dupeset].
  - apply preserves_ret.
  - apply preserves_bind; [apply preserves_print|]. intros _.
    apply preserves_bind; [|intros _; exact IH].
    destruct do_del eqn:Ed; [|apply preserves_ret].
    apply preserves_try_except; [|apply preserves_print].
    intros w Hw. now apply I_remove.
Qed.

Lemma preserves_remove_dupes (all_dupes : list (list string)) :
  Forall (Forall allowed) all_dupes ->
  preserves I (remove_dupes all_dupes do_del).
Proof.
  induction 1 as [|set more Hs Hmore IH]; cbn [remove_dupes].
  - apply preserves_ret.
  - apply preserves_bind; [apply preserves_print|]. intros _.
    apply preserves_bind; [now apply preserves_remove_dupeset|].
    intros _. exact IH.
Qed.

Hypothesis allowed_marked :
  forall p, contains default_indicator (last_segment p) = true -> allowed p.

Lemma verified_dupes_incl (root : node) (oh : string) (l : list string) :
  forall kept, verified_dupes root oh l = Ok kept -> incl kept l.
Proof.
  induction l as [|x l IH]; simpl; intros kept Hk.
  - injection Hk as <-. apply incl_refl.
  - destruct (hash_file root x) as [d| |]; simpl in Hk; try discriminate.
    destruct (verified_dupes root oh l) as [kept'| |]; simpl in Hk;
      try discriminate.
    injection Hk as <-. specialize (IH kept' eq_refl).
    destruct (String.eqb d oh).
    + intros c [<-|Hc]; [now left|right; now apply IH].
    + now apply incl_tl.
Qed.

(** every member of a candidate set carries the marker in its final
    path segment *)
Lemma cur_dupes_of_marked (root : node) (bp ind : string) (v : bool)
      (o : string) (set : list string) :
  cur_dupes_of root bp ind v o = Ok set ->
  Forall (fun q => contains ind (last_segment q) = true) set.
Proof.
  intros Hset. apply Forall_forall. intros q Hq.
  assert (Hm : In q (matched_dupes root bp ind o)).
  { unfold cur_dupes_of in Hset. destruct v.
    - destruct (hash_file root o) as [oh| |]; simpl in Hset; try discriminate.
      eapply verified_dupes_incl; eauto.
    - injection Hset as <-. exact Hq. }
  unfold matched_dupes in Hm. apply filter_In in Hm as [_ Hm].
  now apply andb_true_iff in Hm as [Hm _].
Qed.

Lemma get_dupes_marked (root : node) (bp ind : string) (v : bool)
      (originals : list string) (dupes : list (list string)) :
  get_dupes root bp originals ind v = Ok dupes ->
  Forall (Forall (fun q => contains ind (last_segment q) = true)) dupes.
Proof.
  intros Hrun. unfold get_dupes in Hrun.
  apply get_dupes_loop_spec in Hrun as (sets & Hsets & ->). cbn [app].
  induction Hsets as [|o s originals' sets' Hs _ IH]; simpl; [constructor|].
  destruct (nonempty s); [|exact IH].
  constructor; [|exact IH]. eapply cur_dupes_of_marked; eauto.
Qed.

Lemma preserves_main (fuel : nat) :
  forall bp rec v, preserves I (main fuel bp rec v do_del).
Proof.
  induction fuel as [|f IH]; intros bp rec v; cbn [main].
  - apply preserves_out_of_fuel.
  - apply preserves_bind; [apply preserves_print|]. intros _.
    apply preserves_bind; [apply preserves_lift|]. intros root_images.
    apply preserves_bind_lift. intros root dupes Hdupes.
    apply preserves_bind.
    { destruct (nonempty dupes); [apply preserves_ret|apply preserves_print]. }
    intros _. apply preserves_bind.
    { apply preserves_remove_dupes. apply get_dupes_marked in Hdupes.
      eapply Forall_impl; [|exact Hdupes].
      intros set Hset. eapply Forall_impl; [|exact Hset].
      intros q. apply allowed_marked. }
    intros _. destruct rec; [|apply preserves_ret].
    apply preserves_bind; [apply preserves_lift|]. intros names.
    apply preserves_bind; [apply preserves_lift|]. intros dirs.
    destruct (nonempty dirs); [|apply preserves_ret].
    apply preserves_for_each. intros cd _. apply IH.
Qed.

End Preservation.

(** ** Originals are never deleted *)

Section Safety.
Context {H : Hasher}.
Import Py Posix.

Lemma skipn_length_app {A : Type} (l d : list A) : skipn (length l) (l ++ d) = d.
Proof. induction l as [|x l IH]; simpl; auto. Qed.

(** every path a run hands to [os.remove] carries the marker *)
Lemma main_attempts_marked (fuel : nat) (bp : string) (rec v d : bool)
      (w : world) :
  exists delta,
    unlinks (fst (main fuel bp rec v d w)) = unlinks w ++ delta
    /\ Forall marked delta.
Proof.
  set (I := fun w' : world =>
              exists delta,
                unlinks w' = unlinks w ++ delta /\ Forall marked delta).
  cut (preserves I (main fuel bp rec v d)).
  { intros P. apply (P w). exists []. split; [now rewrite app_nil_r|constructor]. }
  apply preserves_main with (allowed := marked); subst I; cbv beta.
  - intros line w' Hw'. exact Hw'.
  - intros _ p w' Hp (delta & Hd & Hall). exists (delta ++ [p]).
    unfold os_remove. destruct (remove (fs w') p) as [fs' r]. simpl.
    rewrite Hd, app_assoc. split; [reflexivity|].
    apply Forall_app. split; [exact Hall|]. now constructor.
  - intros p Hp. exact Hp.
Qed.

(** C9. A member of a duplicate set is never one of the originals the
    sets were computed for, and every path a commit-mode run of [main]
    hands to [os.remove] carries the marker in its final segment, so
    that no pass classifies it as an original. *)
Theorem originals_never_deleted
        (root : node) (base_path indicator : string) (verify : bool)
        (all_images : list string) (dupes : list (list string)) :
  get_dupes root base_path (get_originals all_images indicator) indicator verify
  = Ok dupes ->
  (forall set q,
      In set dupes -> In q set -> ~ In q (get_originals all_images indicator))
  /\ (forall fuel bp rec v w q,
         In q (attempts w (fst (main fuel bp rec v true w))) ->
         contains default_indicator (last_segment q) = true
         /\ forall images, ~ In q (get_originals images default_indicator)).
Proof.
  intros Hrun. split.
  - intros set q Hset Hq Horig.
    apply get_dupes_marked in Hrun.
    rewrite Forall_forall in Hrun. specialize (Hrun set Hset).
    rewrite Forall_forall in Hrun. specialize (Hrun q Hq).
    unfold get_originals in Horig. apply filter_In in Horig as [_ Hn].
    rewrite Hrun in Hn. discriminate.
  - intros fuel bp rec v w q Hq.
    destruct (main_attempts_marked fuel bp rec v true w) as (delta & Hd & Hall).
    unfold attempts in Hq. rewrite Hd, skipn_length_app in Hq.
    rewrite Forall_forall in Hall. specialize (Hall q Hq).
    split; [exact Hall|]. intros images Himg.
    unfold get_originals in Himg. apply filter_In in Himg as [_ Hn].
    unfold marked in Hall. rewrite Hall in Hn. discriminate.
Qed.

End Safety.

Lemma originals_never_deleted_witness :
  ~ In "pics/cat (1).jpg" (originals_of Samples.pets "pics")
  /\ In "pics/cat (1).jpg"
        (attempts (Samples.start Samples.pets)
                  (fst (@main Samples.spelling_hasher 2 "pics" true true true
                              (Samples.start Samples.pets)))).
Proof.
  assert (Hrun : @get_dupes Samples.spelling_hasher Samples.pets "pics"
                   (get_originals
                      (get_all_files Samples.pets "pics" default_filetypes)
                      default_indicator)
                   default_indicator true
                 = Ok [["pics/cat (1).jpg"]]).
  { vm_compute. reflexivity. }
  split.
  - apply (proj1 (@originals_never_deleted Samples.spelling_hasher
                    Samples.pets "pics" default_indicator true
                    (get_all_files Samples.pets "pics" default_filetypes)
                    [["pics/cat (1).jpg"]] Hrun)
                 ["pics/cat (1).jpg"]); simpl; auto.
  - vm_compute. auto.
Defined.

(** ** Digest errors *)

Section DigestErrors.
Context {H : Hasher}.
Import Py Posix.

Lemma main_get_dupes_raise (f : nat) (bp : string) (rec d : bool) (v : bool)
      (w : world) (e : exn) :
  get_dupes (fs w) bp (originals_of (fs w) bp) default_indicator v = Raise e ->
  main (S f) bp rec v d w
  = (mkWorld (fs w) (stdout w ++ [checking_line bp]) (unlinks w), Raise e).
Proof.
  intros Hd. cbn [main]. unfold bind at 1. rewrite print_run.
  unfold bind at 1. unfold lift at 1. unfold bind at 1. unfold lift at 1.
  cbn [fs]. fold (originals_of (fs w) bp). now rewrite Hd.
Qed.

(** C7. A file that cannot be opened makes [hash_file] raise the error
    of the opening; when this happens for an original or for one of its
    candidates, [get_dupes] raises instead of returning sets, and
    [main] ends with that error before anything is removed. *)
Theorem digest_error_propagates
        (root : node) (base_path indicator : string)
        (originals : list string) (o : string) (e : exn) :
  In o originals ->
  (open_rb root o = Raise e
   \/ exists c, In c (matched_dupes root base_path indicator o)
                /\ open_rb root c = Raise e) ->
  (forall p e0, open_rb root p = Raise e0 -> hash_file root p = Raise e0)
  /\ exists e',
      get_dupes root base_path originals indicator true = Raise e'
      /\ (originals = originals_of root base_path ->
          indicator = default_indicator ->
          forall f rec d out ul,
            main (S f) base_path rec true d (mkWorld root out ul)
            = (mkWorld root (out ++ [checking_line base_path]) ul, Raise e')).
Proof.
  intros Hin Hfail. split; [intros p e0; apply hash_file_unopened|].
  destruct (cur_dupes_of_raise root base_path indicator o e Hfail) as [e1 He1].
  destruct (get_dupes_loop_raise root base_path indicator true originals
                                 [] o e1 Hin He1) as [e' He'].
  exists e'. split; [exact He'|].
  intros -> -> f rec d out ul.
  now apply (main_get_dupes_raise f base_path rec d true (mkWorld root out ul)).
Qed.

End DigestErrors.

Lemma digest_error_propagates_witness :
  exists e',
    @get_dupes Samples.spelling_hasher Samples.guarded "secret"
               ["secret/cat.jpg"] default_indicator true = Raise e'.
Proof.
  destruct (@digest_error_propagates Samples.spelling_hasher
              Samples.guarded "secret" default_indicator
              ["secret/cat.jpg"] "secret/cat.jpg" PermissionError)
    as (_ & e' & He' & _).
  - simpl. auto.
  - right. exists "secret/cat (1).jpg". split; vm_compute; auto.
  - exists e'. exact He'.
Defined.

(** ** A candidate shared by two originals *)

Section SharedCandidate.
Context {H : Hasher}.
Import Py Posix.

(** C10. In a directory holding [photo.jpg], [photo2.jpg] and
    [photo2 (1).jpg], the base name of the first original is a prefix
    of the second's, the marked file is the candidate of both, so it is
    listed in two duplicate sets and reported twice; in commit mode the
    first attempt deletes it, the second raises [FileNotFoundError],
    which is reported, and the run ends normally. *)
Theorem shared_candidate_reported_and_deleted_twice :
  let root := Samples.prefixed in
  let shared := "pics/photo2 (1).jpg" in
  originals_of root "pics" = ["pics/photo.jpg"; "pics/photo2.jpg"]
  /\ startswith (pic_name_of "pics/photo2.jpg") (pic_name_of "pics/photo.jpg")
     = true
  /\ get_dupes root "pics" (originals_of root "pics") default_indicator false
     = Ok [[shared]; [shared]]
  /\ stdout (fst (main 1 "pics" false false false (Samples.start root)))
     = [checking_line "pics"; removing_line; dupe_line shared;
        removing_line; dupe_line shared]
  /\ (let w1 := fst (os_remove shared (Samples.start root)) in
      snd (os_remove shared (Samples.start root)) = Ok tt
      /\ snd (os_remove shared w1) = Raise FileNotFoundError)
  /\ main 1 "pics" false false true (Samples.start root)
     = (mkWorld
          (Dir [("pics",
                 Dir [("photo.jpg", Samples.file [x41]);
                      ("photo2.jpg", Samples.file [x42])] true)] true)
          [checking_line "pics"; removing_line; dupe_line shared;
           removing_line; dupe_line shared; missing_line shared]
          [shared; shared],
        Ok tt).
Proof.
  cbv zeta. repeat split; vm_compute; reflexivity.
Qed.

End SharedCandidate.

(** ** Paths of directory entries *)

Section Paths.
Import Py Posix.

Lemma append_assoc (a b c : string) :
  ((a ++ b) ++ c)%string = (a ++ (b ++ c))%string.
Proof. induction a as [|x a IH]; simpl; [reflexivity|now rewrite IH]. Qed.

Lemma append_empty_r (a : string) : (a ++ "")%string = a.
Proof. induction a as [|x a IH]; simpl; [reflexivity|now rewrite IH]. Qed.

Lemma is_empty_append (a b : string) :
  is_empty (a ++ b) = is_empty a && is_empty b.
Proof. destruct a; reflexivity. Qed.

Lemma endswith_inv (s suf : string) :
  endswith s suf = true -> exists pre, s = (pre ++ suf)%string.
Proof.
  induction s as [|a s IH]; cbn [endswith]; intros Hs.
  - destruct suf; [now exists ""|discriminate].
  - apply orb_true_iff in Hs as [Hs|Hs].
    + apply String.eqb_eq in Hs. now exists "".
    + destruct (IH Hs) as [pre ->]. now exists (String a pre).
Qed.

Lemma walk_app (root : node) (s1 s2 : list string) :
  forall cp,
    walk root cp (s1 ++ s2)
    = let? cp' := walk root cp s1 in walk root cp' s2.
Proof.
  induction s1 as [|seg s1 IH]; intros cp; simpl; [reflexivity|].
  destruct (step root cp seg); simpl; auto.
Qed.

Lemma get_app (p1 p2 : list string) :
  forall n,
    get n (p1 ++ p2)
    = match get n p1 with Some m => get m p2 | None => None end.
Proof.
  induction p1 as [|x p1 IH]; intros n; simpl; [reflexivity|].
  destruct (child n x); auto.
Qed.

Lemma wf_name_facts (d : string) :
  wf_name d = true ->
  is_empty d = false /\ String.eqb d "." = false /\ String.eqb d ".." = false
  /\ mem sep d = false.
Proof.
  unfold wf_name. rewrite !andb_true_iff, !negb_true_iff. tauto.
Qed.

Lemma wf_name_not_absolute (d : string) :
  wf_name d = true -> startswith d "/" = false.
Proof.
  intros Hd. apply wf_name_facts in Hd as (_ & _ & _ & Hm).
  destruct d as [|a d]; [reflexivity|]. simpl in *.
  apply orb_false_iff in Hm as [Ha _]. unfold sep in Ha. now rewrite Ha.
Qed.

Lemma step_empty (root : node) (cp cp' : list string) :
  step root cp "" = Ok cp' -> cp' = cp.
Proof.
  unfold step. destruct (get root cp) as [[c r|es w]|]; try discriminate.
  simpl. congruence.
Qed.

(** resolving [join(base_path, d)] is one more step from [base_path] *)
Lemma resolve_join (root : node) (bp d : string) (cp : list string) :
  is_empty bp = false -> wf_name d = true ->
  resolve root bp = Ok cp ->
  resolve root (join bp d) = step root cp d.
Proof.
  intros Hbp Hd Hres.
  pose proof (wf_name_not_absolute d Hd) as Habs.
  pose proof (wf_name_facts d Hd) as (Hne & _ & _ & Hsep).
  unfold resolve in *. rewrite Hbp in Hres. unfold join. rewrite Habs, Hbp.
  cbn [orb].
  destruct (endswith bp "/") eqn:Eend.
  - apply endswith_inv in Eend as [pre ->].
    rewrite append_assoc. cbn [String.append].
    rewrite is_empty_append. cbn [is_empty andb]. rewrite andb_false_r.
    change "/"%string with (String sep "") in Hres.
    rewrite split_app_sep, walk_app in Hres. cbn [split] in Hres.
    fold sep. rewrite split_app_sep, walk_app, (split_no_sep _ _ Hsep).
    destruct (walk root [] (split sep pre)) as [cp0| |]; simpl in *;
      try discriminate.
    destruct (step root cp0 "") as [cp1| |] eqn:E0; simpl in Hres;
      try discriminate.
    injection Hres as <-. apply step_empty in E0. subst cp1.
    now destruct (step root cp0 d).
  - cbn [String.append]. rewrite is_empty_append, Hbp. cbn [andb].
    fold sep. rewrite split_app_sep, walk_app, (split_no_sep _ _ Hsep), Hres.
    simpl. now destruct (step root cp d).
Qed.

Lemma stat_inv (root : node) (p : string) (n : node) :
  stat root p = Ok n ->
  is_empty p = false
  /\ exists cp, resolve root p = Ok cp /\ get root cp = Some n.
Proof.
  unfold stat. intros Hs. split.
  - unfold resolve in Hs. destruct (is_empty p); [discriminate|reflexivity].
  - destruct (resolve root p) as [cp| |]; simpl in Hs; try discriminate.
    exists cp. split; [reflexivity|].
    destruct (get root cp); congruence.
Qed.

(** the node [join(base_path, d)] denotes is the entry [d] of the
    directory [base_path] denotes *)
Lemma stat_join (root : node) (bp d : string)
      (es : list (string * node)) (w : bool) :
  wf_name d = true ->
  stat root bp = Ok (Dir es w) ->
  stat root (join bp d)
  = match assoc d es with
    | Some v => Ok v
    | None => Raise FileNotFoundError
    end.
Proof.
  intros Hd Hs. apply stat_inv in Hs as (Hbp & cp & Hres & Hget).
  unfold stat. rewrite (resolve_join root bp d cp Hbp Hd Hres).
  pose proof (wf_name_facts d Hd) as (Hne & Hdot & Hdd & _).
  unfold step. rewrite Hget, Hne, Hdot, Hdd. cbn [orb].
  rewrite get_app, Hget. cbn [get child].
  destruct (assoc d es) eqn:E; cbn [obind]; [|reflexivity].
  now rewrite get_app, Hget; cbn [get child]; rewrite E.
Qed.

Lemma assoc_In (d : string) (es : list (string * node)) (v : node) :
  assoc d es = Some v -> In (d, v) es.
Proof.
  induction es as [|[k x] es IH]; simpl; [discriminate|].
  destruct (String.eqb k d) eqn:E.
  - apply String.eqb_eq in E. intros [= ->]. left. now subst.
  - intros Hv. right. auto.
Qed.

Lemma height_entry (d : string) (v : node) (es : list (string * node))
      (w : bool) :
  In (d, v) es -> height v < height (Dir es w).
Proof.
  intros Hin. cbn [height]. apply Nat.lt_succ_r.
  induction es as [|[k x] es IH]; [contradiction|]. cbn [fold_right].
  destruct Hin as [E|Hin].
  - injection E as -> ->. apply Nat.le_max_l.
  - etransitivity; [now apply IH|apply Nat.le_max_r].
Qed.

Lemma wf_tree_entry (d : string) (v : node) (es : list (string * node))
      (w : bool) :
  wf_tree (Dir es w) = true -> In (d, v) es ->
  wf_name d = true /\ wf_tree v = true.
Proof.
  cbn [wf_tree]. rewrite forallb_forall. intros Hall Hin.
  specialize (Hall (d, v) Hin). now apply andb_true_iff in Hall.
Qed.

Lemma wf_tree_get (cp : list string) :
  forall root n,
    wf_tree root = true -> get root cp = Some n -> wf_tree n = true.
Proof.
  induction cp as [|x cp IH]; intros root n Hwf Hget; simpl in Hget.
  - now injection Hget as <-.
  - destruct root as [c r|es w]; simpl in Hget; [discriminate|].
    destruct (assoc x es) as [c|] eqn:E; [|discriminate].
    apply assoc_In in E. apply (wf_tree_entry _ _ _ _ Hwf) in E as [_ Hc].
    eauto.
Qed.

End Paths.

(** ** Dry runs *)

Section DryRun.
Context {H : Hasher}.
Import Py Posix.

Variable root : node.

Lemma harmless_ret {A : Type} (a : A) : harmless root (ret a).
Proof. intros w Hw. split; [exact Hw|discriminate]. Qed.

Lemma harmless_print (line : string) : harmless root (print line).
Proof. intros w Hw. split; [exact Hw|discriminate]. Qed.

Lemma harmless_bind {A B : Type} (m : M A) (k : A -> M B) :
  harmless root m -> (forall a, harmless root (k a)) ->
  harmless root (bind m k).
Proof.
  intros Hm Hk w Hw. destruct (Hm w Hw) as [Hfs Hr]. unfold bind.
  destruct (m w) as [w' [a|e|]]; simpl in *.
  - now apply Hk.
  - split; [exact Hfs|discriminate].
  - contradiction.
Qed.

Lemma harmless_bind_lift {A B : Type} (f : node -> outcome A) (k : A -> M B) :
  f root <> OutOfFuel ->
  (forall a, f root = Ok a -> harmless root (k a)) ->
  harmless root (bind (lift f) k).
Proof.
  intros Hf Hk w Hw. unfold bind, lift.
  destruct (f (fs w)) as [a|e|] eqn:E; rewrite Hw in E; simpl.
  - now apply (Hk a E).
  - split; [exact Hw|discriminate].
  - contradiction.
Qed.

Lemma harmless_for_each {A : Type} (l : list A) (body : A -> M unit) :
  (forall x, In x l -> harmless root (body x)) ->
  harmless root (for_each l body).
Proof.
  induction l as [|x l IH]; intros Hbody; simpl.
  - apply harmless_ret.
  - apply harmless_bind; [apply Hbody; now left|].
    intros _. apply IH. intros y Hy. apply Hbody. now right.
Qed.

Lemma harmless_remove_dupeset (set : list string) :
  harmless root (remove_dupeset set false).
Proof.
  induction set as [|p set IH]; cbn [remove_dupeset].
  - apply harmless_ret.
  - apply harmless_bind; [apply harmless_print|]. intros _.
    apply harmless_bind; [apply harmless_ret|]. intros _. exact IH.
Qed.

Lemma harmless_remove_dupes (all_dupes : list (list string)) :
  harmless root (remove_dupes all_dupes false).
Proof.
  induction all_dupes as [|set more IH]; cbn [remove_dupes].
  - apply harmless_ret.
  - apply harmless_bind; [apply harmless_print|]. intros _.
    apply harmless_bind; [apply harmless_remove_dupeset|]. intros _. exact IH.
Qed.

Lemma listdir_inv (bp : string) (names : list string) :
  listdir root bp = Ok names ->
  exists es w, stat root bp = Ok (Dir es w) /\ names = map fst es.
Proof.
  unfold listdir, scandir.
  destruct (stat root bp) as [[c r|es w]| |]; simpl; try discriminate.
  intros [= <-]. eauto.
Qed.

Lemma listdir_total (bp : string) : listdir root bp <> OutOfFuel.
Proof.
  unfold listdir, scandir.
  destruct (stat root bp) as [[c r|es w]| |] eqn:E; simpl; try discriminate.
  now apply stat_total in E.
Qed.

(** a subdirectory [main] recurses into lies one level down *)
Lemma subdirectory_height (bp d : string) (names : list string) :
  wf_tree root = true ->
  listdir root bp = Ok names ->
  In d names -> isdir root (join bp d) = true ->
  height_at root (join bp d) < height_at root bp.
Proof.
  intros Hwf Hls Hd Hdir.
  apply listdir_inv in Hls as (es & w & Hs & ->).
  apply in_map_iff in Hd as ([k v] & <- & Hin). cbn [fst] in *.
  pose proof Hs as Hs'. apply stat_inv in Hs' as (_ & cp & _ & Hget).
  pose proof (wf_tree_get cp root _ Hwf Hget) as Hwfd.
  destruct (wf_tree_entry _ _ _ _ Hwfd Hin) as [Hk _].
  unfold height_at. unfold isdir in Hdir.
  rewrite (stat_join root bp k es w Hk Hs) in *. rewrite Hs.
  destruct (assoc k es) as [c|] eqn:E; [|discriminate].
  apply assoc_In in E. exact (height_entry k c es w E).
Qed.

(** in a dry run over a well-formed tree, a budget above the depth of
    the tree under [base_path] is enough, and the tree stays as it is *)
Lemma main_dry_harmless (rec v : bool) (fuel : nat) :
  wf_tree root = true ->
  forall bp, height_at root bp < fuel ->
             harmless root (main fuel bp rec v false).
Proof.
  intros Hwf. induction fuel as [|f IH]; intros bp Hh; [lia|]. cbn [main].
  apply harmless_bind; [apply harmless_print|]. intros _.
  apply harmless_bind_lift; [discriminate|]. intros root_images _.
  apply harmless_bind_lift; [apply get_dupes_loop_total|]. intros dupes _.
  apply harmless_bind.
  { destruct dupes; [apply harmless_print|apply harmless_ret]. }
  intros _. apply harmless_bind; [apply harmless_remove_dupes|]. intros _.
  destruct rec; [|apply harmless_ret].
  apply harmless_bind_lift; [apply listdir_total|]. intros names Hnames.
  apply harmless_bind_lift; [discriminate|]. intros dirs [= <-].
  match goal with |- context [nonempty ?l] => destruct (nonempty l) end;
    [|apply harmless_ret].
  apply harmless_for_each. intros cd Hcd.
  apply in_map_iff in Hcd as (d & <- & Hd). apply filter_In in Hd as [Hd Hdir].
  apply IH.
  pose proof (subdirectory_height bp d names Hwf Hnames Hd Hdir). lia.
Qed.

End DryRun.

(** ** Runs only append to the printed lines and the attempts *)

Section Framing.
Context {H : Hasher}.
Import Py Posix.

Ltac frame_start :=
  let root := fresh "root" in
  let out := fresh "out" in
  let ul := fresh "ul" in
  intros root out ul; cbv beta delta [ret print lift out_of_fuel os_remove];
  cbn [fs stdout unlinks].

Lemma framed_ret {A : Type} (a : A) : framed (ret a).
Proof. frame_start. now rewrite !app_nil_r. Qed.

Lemma framed_out_of_fuel {A : Type} : framed (@out_of_fuel A).
Proof. frame_start. now rewrite !app_nil_r. Qed.

Lemma framed_lift {A : Type} (f : node -> outcome A) : framed (lift f).
Proof. frame_start. now rewrite !app_nil_r. Qed.

Lemma framed_print (line : string) : framed (print line).
Proof. frame_start. now rewrite !app_nil_r. Qed.

Lemma framed_os_remove (p : string) : framed (os_remove p).
Proof.
  frame_start. destruct (remove root p) as [fs' r]. cbn [fs stdout unlinks].
  now rewrite !app_nil_r.
Qed.

Lemma framed_bind {A B : Type} (m : M A) (k : A -> M B) :
  framed m -> (forall a, framed (k a)) -> framed (bind m k).
Proof.
  intros Hm Hk root out ul. unfold bind. rewrite (Hm root out ul).
  destruct (m (mkWorld root [] [])) as [[r1 o1 u1] [a|e|]]; cbn [fs stdout unlinks];
    try reflexivity.
  rewrite (Hk a r1 (out ++ o1) (ul ++ u1)), (Hk a r1 o1 u1).
  destruct (k a (mkWorld r1 [] [])) as [[r2 o2 u2] r]. cbn [fs stdout unlinks].
  now rewrite !app_assoc.
Qed.

Lemma framed_try_except {A : Type} (m handler : M A) (e : exn) :
  framed m -> framed handler -> framed (try_except m e handler).
Proof.
  intros Hm Hh root out ul. unfold try_except. rewrite (Hm root out ul).
  destruct (m (mkWorld root [] [])) as [[r1 o1 u1] [a|e'|]];
    cbn [fs stdout unlinks]; try reflexivity.
  destruct (exn_eqb e' e); [|reflexivity].
  rewrite (Hh r1 (out ++ o1) (ul ++ u1)), (Hh r1 o1 u1).
  destruct (handler (mkWorld r1 [] [])) as [[r2 o2 u2] r].
  cbn [fs stdout unlinks]. now rewrite !app_assoc.
Qed.

Lemma framed_for_each {A : Type} (l : list A) (body : A -> M unit) :
  (forall x, framed (body x)) -> framed (for_each l body).
Proof.
  intros Hbody. induction l as [|x l IH]; simpl.
  - apply framed_ret.
  - apply framed_bind; auto.
Qed.

Create HintDb frames.
#[local] Hint Resolve framed_ret framed_out_of_fuel framed_lift framed_print
  framed_os_remove framed_try_except framed_for_each : frames.

Lemma framed_remove_dupeset (set : list string) (d : bool) :
  framed (remove_dupeset set d).
Proof.
  induction set as [|p set IH]; cbn [remove_dupeset]; auto with frames.
  apply framed_bind; [auto with frames|]. intros _.
  apply framed_bind; [|intros _; exact IH].
  destruct d; auto with frames.
Qed.

Lemma framed_remove_dupes (all_dupes : list (list string)) (d : bool) :
  framed (remove_dupes all_dupes d).
Proof.
  induction all_dupes as [|set more IH]; cbn [remove_dupes]; auto with frames.
  apply framed_bind; [auto with frames|]. intros _.
  apply framed_bind; [apply framed_remove_dupeset|]. intros _. exact IH.
Qed.

#[local] Hint Resolve framed_remove_dupes : frames.

Lemma framed_main (fuel : nat) :
  forall bp rec v d, framed (main fuel bp rec v d).
Proof.
  induction fuel as [|f IH]; intros bp rec v d; cbn [main]; auto with frames.
  repeat (apply framed_bind; [auto with frames|intros ?]).
  - destruct (nonempty _); cbn [negb]; auto with frames.
  - destruct rec; auto with frames.
    repeat (apply framed_bind; [auto with frames|intros ?]).
    destruct (nonempty _); auto with frames.
Qed.

(** whatever the budget and the tree, a dry run leaves the tree as it
    is and attempts no deletion *)
Lemma main_dry_no_mutation (fuel : nat) (bp : string) (rec v : bool)
      (w : world) :
  fs (fst (main fuel bp rec v false w)) = fs w
  /\ unlinks (fst (main fuel bp rec v false w)) = unlinks w.
Proof.
  apply (preserves_main
           (fun w' => fs w' = fs w /\ unlinks w' = unlinks w)
           (fun line w' Hw' => Hw')
           false (fun _ => True)); auto.
  intros [=].
Qed.

(** C5. A dry run of [main] over a well-formed tree, with a budget
    above the depth of the tree under [base_path], ends (normally or
    with an error), changes nothing in the tree and calls [os.remove]
    on nothing; run again on the state it leaves, it ends the same way
    and prints the same lines. *)
Theorem dry_run_idempotent
        (root : node) (base_path : string) (recursive verify : bool)
        (out ul : list string) (fuel : nat) :
  wf_tree root = true ->
  height_at root base_path < fuel ->
  let w := mkWorld root out ul in
  let w1 := fst (main fuel base_path recursive verify false w) in
  let w2 := fst (main fuel base_path recursive verify false w1) in
  snd (main fuel base_path recursive verify false w) <> OutOfFuel
  /\ fs w1 = root /\ unlinks w1 = ul
  /\ fs w2 = root /\ unlinks w2 = ul
  /\ snd (main fuel base_path recursive verify false w1)
     = snd (main fuel base_path recursive verify false w)
  /\ report w1 w2 = report w w1.
Proof.
  intros Hwf Hfuel w w1 w2.
  destruct (main_dry_harmless root recursive verify fuel Hwf base_path Hfuel
                              w eq_refl) as [_ Hends].
  destruct (main_dry_no_mutation fuel base_path recursive verify w)
    as [Hfs1 Hul1].
  destruct (main_dry_no_mutation fuel base_path recursive verify w1)
    as [Hfs2 Hul2].
  fold w1 in Hfs1, Hul1. fold w2 in Hfs2, Hul2.
  cbn [fs unlinks w] in Hfs1, Hul1.
  split; [exact Hends|]. split; [exact Hfs1|]. split; [exact Hul1|].
  split; [congruence|]. split; [congruence|].
  pose proof (framed_main fuel base_path recursive verify false root out ul)
    as Hframe.
  fold w in Hframe.
  destruct (main fuel base_path recursive verify false (mkWorld root [] []))
    as [[r0 o0 u0] res0] eqn:Erun.
  cbn [fs stdout unlinks] in Hframe.
  assert (Ew1 : w1 = mkWorld root (out ++ o0) ul).
  { subst w1. rewrite Hframe in *. cbn [fst fs unlinks] in *. congruence. }
  subst w2. rewrite Ew1.
  rewrite (framed_main fuel base_path recursive verify false root (out ++ o0) ul).
  rewrite Erun, Hframe. cbn [fst snd fs stdout unlinks].
  split; [reflexivity|].
  unfold report. cbn [stdout]. subst w. cbn [stdout].
  now rewrite !skipn_length_app.
Qed.

End Framing.

Lemma dry_run_idempotent_witness :
  let w := Samples.start Samples.pets in
  let w1 := fst (@main Samples.spelling_hasher 3 "pics" true true false w) in
  let w2 := fst (@main Samples.spelling_hasher 3 "pics" true true false w1) in
  snd (@main Samples.spelling_hasher 3 "pics" true true false w) <> OutOfFuel
  /\ fs w1 = Samples.pets /\ unlinks w1 = []
  /\ fs w2 = Samples.pets /\ unlinks w2 = []
  /\ snd (@main Samples.spelling_hasher 3 "pics" true true false w1)
     = snd (@main Samples.spelling_hasher 3 "pics" true true false w)
  /\ report w1 w2 = report w w1.
Proof.
  apply (@dry_run_idempotent Samples.spelling_hasher Samples.pets "pics"
           true true [] [] 3).
  - reflexivity.
  - vm_compute. lia.
Defined.

(** ** Patterns without pattern characters *)

Section PlainPatterns.
Import Py Fnmatch.

Lemma mem_append (c : ascii) (a b : string) :
  mem c (a ++ b) = mem c a || mem c b.
Proof.
  induction a as [|x a IH]; simpl; [reflexivity|].
  now rewrite IH, orb_assoc.
Qed.

Lemma has_magic_append (a b : string) :
  Glob.has_magic (a ++ b) = Glob.has_magic a || Glob.has_magic b.
Proof.
  unfold Glob.has_magic. rewrite !mem_append.
  destruct (mem "*" a), (mem "?" a), (mem "[" a),
           (mem "*" b), (mem "?" b), (mem "[" b); reflexivity.
Qed.

Lemma plain_cons (a : ascii) (s : string) :
  plain (String a s) ->
  Ascii.eqb a "*" = false /\ Ascii.eqb a "?" = false
  /\ Ascii.eqb a "[" = false /\ plain s.
Proof.
  unfold plain, Glob.has_magic. cbn [mem].
  destruct (Ascii.eqb a "*"), (Ascii.eqb a "?"), (Ascii.eqb a "[");
    cbn [orb]; try discriminate; try (rewrite ?orb_true_r; discriminate).
  auto.
Qed.

(** a pattern-free text followed by any pattern: its characters come
    out as literals *)
Lemma translate_aux_plain (s rest : string) :
  plain s ->
  forall fuel after,
    String.length (s ++ rest) <= fuel ->
    translate_aux fuel after (s ++ rest)
    = lits s ++ translate_aux (fuel - String.length s)
                              (match s with
                               | EmptyString => after
                               | String _ _ => false
                               end) rest.
Proof.
  induction s as [|a s IH]; intros Hp fuel after Hlen.
  - cbn. now rewrite Nat.sub_0_r.
  - apply plain_cons in Hp as (Hs & Hq & Hb & Hp).
    destruct fuel as [|f]; [cbn in Hlen; lia|].
    cbn [String.append translate_aux lits String.length app].
    rewrite Hs, Hq, Hb. f_equal.
    rewrite (IH Hp f false); [|cbn in Hlen; lia].
    cbn [Nat.sub]. now destruct s.
Qed.

Lemma match_lits (s name : string) :
  match_items (lits s) name = String.eqb name s.
Proof.
  revert name. induction s as [|a s IH]; intros [|c name]; try reflexivity.
  cbn [lits match_items item_matches String.eqb]. rewrite IH.
  now destruct (Ascii.eqb c a).
Qed.

(** [*] followed by a pattern-free text: the names ending with it *)
Lemma match_star_lits (s name : string) :
  match_items (Star :: lits s) name = endswith name s.
Proof.
  induction name as [|c name IH].
  - cbn [match_items endswith]. now rewrite match_lits.
  - cbn [match_items endswith] in *. now rewrite match_lits, IH.
Qed.

(** a pattern-free text followed by [*]: the names starting with it *)
Lemma match_lits_star (s name : string) :
  match_items (lits s ++ [Star]) name = startswith name s.
Proof.
  revert name. induction s as [|a s IH]; intros name.
  - cbn [lits app match_items startswith].
    induction name as [|c name IHn]; [reflexivity|].
    cbn [is_empty orb]. rewrite IHn. now destruct name.
  - destruct name as [|c name]; [reflexivity|].
    cbn [lits app match_items item_matches startswith]. now rewrite IH.
Qed.

Lemma fnmatch_suffix (ft name : string) :
  plain ft ->
  fnmatch name ("*." ++ ft) = endswith name ("." ++ ft).
Proof.
  intros Hp. unfold fnmatch, translate.
  cbn [String.append String.length translate_aux].
  change (Ascii.eqb "*" "*") with true. cbv iota.
  change (Ascii.eqb "." "*") with false. change (Ascii.eqb "." "?") with false.
  change (Ascii.eqb "." "[") with false. cbv iota.
  pose proof (translate_aux_plain ft "" Hp (String.length ft) false) as Ht.
  rewrite append_empty_r in Ht. rewrite Ht; [|lia].
  rewrite Nat.sub_diag. cbn [translate_aux]. rewrite app_nil_r.
  exact (match_star_lits (String "." ft) name).
Qed.

Lemma fnmatch_prefix (pic_name name : string) :
  plain pic_name ->
  fnmatch name (pic_name ++ "*") = startswith name pic_name.
Proof.
  intros Hp. unfold fnmatch, translate.
  rewrite (translate_aux_plain pic_name "*" Hp); [|lia].
  replace (String.length (pic_name ++ "*") - String.length pic_name) with 1.
  - cbn [translate_aux]. change (Ascii.eqb "*" "*") with true. cbv iota.
    destruct pic_name; apply match_lits_star.
  - induction pic_name as [|a s IH]; [reflexivity|].
    apply plain_cons in Hp as (_ & _ & _ & Hp).
    cbn [String.append String.length]. rewrite Nat.sub_succ. auto.
Qed.

End PlainPatterns.

(** ** Splitting a joined pattern *)

Section Splitting.
Import Py Posix.

Lemma rfind_absent (c : ascii) (s : string) :
  mem c s = false -> rfind c s = (-1)%Z.
Proof.
  induction s as [|a s IH]; cbn [mem rfind]; [reflexivity|].
  intros Hm. apply orb_false_iff in Hm as [Ha Hs].
  now rewrite (IH Hs), Ha.
Qed.

Lemma rfind_app_sep (c : ascii) (a b : string) :
  mem c b = false ->
  rfind c (a ++ String c b) = Z.of_nat (String.length a).
Proof.
  intros Hb. induction a as [|x a IH].
  - cbn [String.append rfind String.length].
    now rewrite (rfind_absent c b Hb), eqb_ascii_refl.
  - cbn [String.append rfind String.length]. rewrite IH.
    destruct (0 <=? Z.of_nat (String.length a))%Z eqn:E; [lia|].
    apply Z.leb_gt in E. lia.
Qed.

Lemma take_app_length (a b : string) (n : nat) :
  take (String.length a + n) (a ++ b) = (a ++ take n b)%string.
Proof. induction a as [|x a IH]; cbn; [reflexivity|now rewrite IH]. Qed.

Lemma drop_app_length (a b : string) (n : nat) :
  drop (String.length a + n) (a ++ b) = drop n b.
Proof. induction a as [|x a IH]; cbn; [reflexivity|exact IH]. Qed.

Lemma path_split_no_sep (b : string) :
  mem sep b = false -> path_split b = (EmptyString, b).
Proof.
  intros Hb. unfold path_split. rewrite (rfind_absent sep b Hb).
  change (-1 + 1)%Z with 0%Z. unfold slice_to, slice_from.
  change (Z.to_nat 0) with 0. now destruct b.
Qed.

Lemma path_split_app (a b : string) :
  mem sep b = false ->
  path_split (a ++ String sep b) = (head_of (a ++ "/"), b).
Proof.
  intros Hb. unfold path_split. rewrite (rfind_app_sep sep a b Hb).
  unfold slice_to, slice_from.
  replace (Z.to_nat (Z.of_nat (String.length a) + 1))
    with (String.length a + 1) by lia.
  rewrite take_app_length, drop_app_length.
  cbn [take drop]. reflexivity.
Qed.

End Splitting.

(** ** [glob] in a pattern-free directory *)

Section Globbing.
Import Py Posix Glob.

Lemma join_empty_l (b : string) : join "" b = b.
Proof. unfold join. now destruct (startswith b "/"). Qed.

Lemma no_sep_not_absolute (b : string) :
  mem sep b = false -> startswith b "/" = false.
Proof.
  destruct b as [|x b]; [reflexivity|]. cbn [mem startswith].
  intros Hm. apply orb_false_iff in Hm as [Hx _]. unfold sep in Hx.
  now rewrite Hx.
Qed.

(** a non-empty base path joined with a relative text: the text after
    a separator, after a stem that is the base path or the base path
    less its final separator *)
Lemma join_form (bp : string) :
  is_empty bp = false ->
  exists a,
    (forall b, startswith b "/" = false -> join bp b = (a ++ String sep b)%string)
    /\ (bp = (a ++ "/")%string \/ (bp = a /\ endswith bp "/" = false)).
Proof.
  intros Hbp. destruct (endswith bp "/") eqn:E.
  - pose proof E as E'. apply endswith_inv in E' as [pre ->]. exists pre.
    split; [|now left].
    intros b Hb. unfold join. rewrite Hb, E, orb_true_r.
    now rewrite append_assoc.
  - exists bp. split; [|now right].
    intros b Hb. unfold join. rewrite Hb, Hbp, E. reflexivity.
Qed.

Lemma glob_dir_empty : glob_dir "" = "".
Proof. reflexivity. Qed.

(** [os.path.split] of a joined pattern gives back the pattern, and a
    directory part that does not depend on it *)
Lemma path_split_join (bp pat : string) :
  mem sep pat = false ->
  path_split (join bp pat) = (glob_dir bp, pat).
Proof.
  intros Hpat. pose proof (no_sep_not_absolute pat Hpat) as Habs.
  destruct (is_empty bp) eqn:Hbp.
  - destruct bp; [|discriminate]. rewrite join_empty_l.
    now rewrite (path_split_no_sep pat Hpat).
  - destruct (join_form bp Hbp) as (a & Hjoin & _).
    unfold glob_dir. rewrite (Hjoin pat Habs), (Hjoin "*" eq_refl).
    now rewrite !path_split_app.
Qed.

Lemma mem_rstrip (c x : ascii) (s : string) :
  mem c s = false -> mem c (rstrip x s) = false.
Proof.
  induction s as [|a s IH]; [reflexivity|]. cbn [mem rstrip].
  intros Hm. apply orb_false_iff in Hm as [Ha Hs]. specialize (IH Hs).
  destruct (rstrip x s) as [|y r].
  - destruct (Ascii.eqb a x); [reflexivity|]. cbn [mem]. now rewrite Ha.
  - cbn [mem] in *. now rewrite Ha, IH.
Qed.

Lemma mem_drop (c : ascii) (n : nat) :
  forall s, mem c (drop n s) = true -> mem c s = true.
Proof.
  induction n as [|n IH]; intros [|x s]; cbn [drop mem]; auto.
  intros Hc. rewrite (IH s Hc). apply orb_true_r.
Qed.

Lemma plain_rstrip (s : string) : plain s -> plain (rstrip sep s).
Proof.
  unfold plain, has_magic. intros Hp.
  apply orb_false_iff in Hp as [Hp H3]. apply orb_false_iff in Hp as [H1 H2].
  now rewrite !mem_rstrip.
Qed.

Lemma plain_glob_dir (bp : string) : plain bp -> plain (glob_dir bp).
Proof.
  intros Hp. destruct (is_empty bp) eqn:Hbp.
  - destruct bp; [reflexivity|discriminate].
  - destruct (join_form bp Hbp) as (a & Hjoin & Hform).
    unfold glob_dir. rewrite (Hjoin "*" eq_refl), path_split_app by reflexivity.
    cbn [fst]. assert (Ha : plain (a ++ "/")).
    { unfold plain in *. rewrite has_magic_append.
      destruct Hform as [->|[-> _]].
      - rewrite has_magic_append in Hp. exact Hp.
      - now rewrite Hp. }
    unfold head_of.
    destruct (negb (is_empty (a ++ "/")) && negb (all_char sep (a ++ "/")));
      [now apply plain_rstrip|exact Ha].
Qed.

(** a pattern whose directory part is pattern-free and whose base name
    is a pattern: the matching names of that one directory, joined *)
Lemma iglob_one_directory (root : node) (pathname dirname basename : string)
      (dironly : bool) (fuel : nat) :
  path_split pathname = (dirname, basename) ->
  plain dirname -> has_magic basename = true ->
  iglob fuel root pathname dironly
  = map (join dirname) (glob1 root dirname basename dironly).
Proof.
  intros Hsplit Hdir Hbase.
  assert (Hmagic : has_magic pathname = true).
  { unfold path_split in Hsplit. injection Hsplit as _ Htail.
    unfold has_magic in *. set (i := (rfind sep pathname + 1)%Z) in *.
    assert (Hsub : forall c, mem c (slice_from i pathname) = true ->
                             mem c pathname = true).
    { intros c. apply mem_drop. }
    rewrite Htail in Hsub.
    apply orb_true_iff in Hbase as [Hbase|Hbase];
      [apply orb_true_iff in Hbase as [Hbase|Hbase]|];
      rewrite (Hsub _ Hbase); rewrite ?orb_true_r; reflexivity. }
  assert (Hbody : forall deeper,
            iglob_in deeper root pathname dironly
            = map (join dirname) (glob1 root dirname basename dironly)).
  { intros deeper. unfold iglob_in. rewrite Hsplit, Hmagic. cbn [negb].
    unfold plain in Hdir. rewrite Hdir, andb_false_r.
    destruct (is_empty dirname) eqn:Hd.
    - destruct dirname; [|discriminate].
      rewrite (map_ext (join "") (fun x => x) join_empty_l), map_id. reflexivity.
    - cbn [flat_map]. now rewrite Hbase, app_nil_r. }
  destruct fuel; cbn [iglob]; apply Hbody.
Qed.

(** [glob.glob] of a file-name pattern joined to a pattern-free base
    path *)
Lemma glob_joined (root : node) (bp pat : string) :
  plain bp -> mem sep pat = false -> has_magic pat = true ->
  glob root (join bp pat)
  = map (join (glob_dir bp)) (glob1 root (glob_dir bp) pat false).
Proof.
  intros Hbp Hsep Hpat. unfold glob.
  apply iglob_one_directory; auto using path_split_join, plain_glob_dir.
Qed.

End Globbing.

(** ** The directory [glob] scans is the base path's *)

Section ScannedDirectory.
Import Py Posix Glob.

Lemma rstrip_app_sep (c : ascii) (s : string) :
  rstrip c (s ++ String c "") = rstrip c s.
Proof.
  induction s as [|a s IH]; cbn [String.append rstrip].
  - now rewrite eqb_ascii_refl.
  - now rewrite IH.
Qed.

Lemma rstrip_empty_iff (c : ascii) (s : string) :
  rstrip c s = "" <-> all_char c s = true.
Proof.
  induction s as [|a s IH]; cbn [rstrip all_char]; [tauto|].
  destruct (rstrip c s) as [|y r].
  - destruct (Ascii.eqb a c); cbn [andb].
    + split; [intros _; now apply IH|reflexivity].
    + split; discriminate.
  - split; [discriminate|].
    intros Hall. apply andb_true_iff in Hall as [_ Hall].
    apply IH in Hall. discriminate.
Qed.

Lemma rstrip_keeps (c : ascii) (s : string) :
  endswith s (String c "") = false -> rstrip c s = s.
Proof.
  induction s as [|a s IH]; [reflexivity|]. cbn [endswith rstrip].
  intros He. apply orb_false_iff in He as [Heq Hs].
  destruct s as [|b s].
  - cbn [rstrip].
    destruct (Ascii.eqb a c) eqn:E; [|reflexivity].
    apply Ascii.eqb_eq in E. subst a.
    now rewrite String.eqb_refl in Heq.
  - rewrite (IH Hs). reflexivity.
Qed.

(** a text is its [rstrip] followed by separators *)
Lemma rstrip_tail (c : ascii) (s : string) :
  exists t, s = (rstrip c s ++ t)%string /\ all_char c t = true.
Proof.
  induction s as [|a s (t & Hs & Ht)]; [now exists ""|].
  cbn [rstrip]. destruct (rstrip c s) as [|y r] eqn:E.
  - destruct (Ascii.eqb a c) eqn:Ea.
    + exists (String a s). split; [reflexivity|].
      cbn [all_char]. rewrite Ea. now apply rstrip_empty_iff.
    + exists t. split; [|exact Ht]. cbn [String.append] in *. now rewrite <- Hs.
  - exists t. split; [|exact Ht]. cbn [String.append] in *. now rewrite <- Hs.
Qed.

(** a final separator after a non-empty path changes nothing in what
    the path lists *)
Lemma listing_trailing_sep (root : node) (q : string) :
  is_empty q = false -> listing root (q ++ "/") = listing root q.
Proof.
  intros Hq. unfold listing, scandir, stat, resolve.
  rewrite is_empty_append, Hq. cbn [andb].
  change "/"%string with (String sep ""). rewrite split_app_sep, walk_app.
  cbn [split]. destruct (walk root [] (split sep q)) as [cp| |];
    cbn [obind walk]; try reflexivity.
  unfold step. cbn [is_empty orb].
  destruct (get root cp) as [[content r|es w]|] eqn:E; cbn [obind];
    rewrite ?E; reflexivity.
Qed.

Lemma listing_trailing_seps (root : node) (t : string) :
  all_char sep t = true ->
  forall q, is_empty q = false -> listing root (q ++ t) = listing root q.
Proof.
  induction t as [|c t IH]; intros Hall q Hq.
  - now rewrite append_empty_r.
  - cbn [all_char] in Hall. apply andb_true_iff in Hall as [Hc Hall].
    apply Ascii.eqb_eq in Hc. subst c.
    change (String sep t) with ("/" ++ t)%string.
    rewrite <- append_assoc, (IH Hall).
    + now apply listing_trailing_sep.
    + rewrite is_empty_append, Hq. reflexivity.
Qed.

Lemma all_char_endswith (c : ascii) (s : string) :
  is_empty s = false -> all_char c s = true ->
  endswith s (String c "") = true.
Proof.
  induction s as [|a s IH]; [discriminate|]. intros _ Hall.
  cbn [all_char] in Hall. apply andb_true_iff in Hall as [Ha Hall].
  apply Ascii.eqb_eq in Ha. subst a. cbn [endswith].
  destruct s as [|b s].
  - now rewrite String.eqb_refl.
  - rewrite (IH eq_refl Hall). apply orb_true_r.
Qed.

Lemma all_char_append (c : ascii) (a b : string) :
  all_char c (a ++ b) = all_char c a && all_char c b.
Proof.
  induction a as [|x a IH]; cbn [String.append all_char]; [reflexivity|].
  now rewrite IH, andb_assoc.
Qed.

(** [glob] scans the directory the base path denotes *)
Lemma entries_of_glob_dir (root : node) (bp : string) :
  entries_of root (glob_dir bp) = entries_of root bp.
Proof.
  destruct (is_empty bp) eqn:Hbp.
  - destruct bp; [reflexivity|discriminate].
  - destruct (join_form bp Hbp) as (a & Hjoin & Hform).
    unfold glob_dir. rewrite (Hjoin "*" eq_refl), path_split_app by reflexivity.
    cbn [fst]. unfold head_of. rewrite is_empty_append, andb_false_r.
    cbn [negb andb]. unfold entries_of. rewrite Hbp.
    destruct (all_char sep (a ++ "/")) eqn:Hall; cbn [negb].
    + rewrite is_empty_append, andb_false_r.
      destruct Hform as [->|[-> Hend]]; [reflexivity|].
      rewrite all_char_append in Hall. apply andb_true_iff in Hall as [Hall _].
      pose proof (all_char_endswith sep a Hbp Hall) as Hend'.
      unfold sep in Hend'. congruence.
    + assert (Hne : is_empty (rstrip sep (a ++ "/")) = false).
      { destruct (rstrip sep (a ++ "/")) eqn:E; [|reflexivity].
        apply rstrip_empty_iff in E. congruence. }
      rewrite Hne.
      destruct Hform as [->|[-> Hend]].
      * destruct (rstrip_tail sep (a ++ "/")) as (t & Ht & Hall').
        rewrite Ht at 2. symmetry. now apply listing_trailing_seps.
      * change "/"%string with (String sep ""). rewrite rstrip_app_sep.
        now rewrite (rstrip_keeps sep a Hend).
Qed.

Lemma listdir_quiet_entries (root : node) (d : string) :
  listdir_quiet root d false = map fst (entries_of root d).
Proof.
  unfold listdir_quiet, entries_of, listing.
  destruct (scandir root (if is_empty d then "." else d)) as [es| |];
    try reflexivity.
  f_equal. cbn [negb orb]. induction es as [|e es IH]; cbn; congruence.
Qed.

End ScannedDirectory.

(** ** File discovery *)

Section Discovery.
Import Py Posix Glob.

Lemma filter_filter {A : Type} (f g : A -> bool) (l : list A) :
  filter f (filter g l) = filter (fun x => g x && f x) l.
Proof.
  induction l as [|x l IH]; cbn [filter]; [reflexivity|].
  destruct (g x); cbn [filter andb]; [|exact IH].
  destruct (f x); now rewrite IH.
Qed.

(** the names [glob] keeps for [*.ftype] in one directory *)
Lemma glob1_extension (root : node) (d ft : string) :
  plain ft ->
  glob1 root d ("*." ++ ft) false
  = filter (fun name => negb (ishidden name) && endswith name ("." ++ ft))
           (map fst (entries_of root d)).
Proof.
  intros Hft. unfold glob1. rewrite listdir_quiet_entries.
  change (ishidden ("*." ++ ft)) with false. cbn [negb].
  rewrite filter_filter. apply filter_ext. intros name.
  now rewrite (fnmatch_suffix ft name Hft).
Qed.

(** What [get_all_files] returns for a base path free of pattern
    characters: type after type in the order of the list, the entries
    of the directory whose name does not start with a dot and ends
    with a dot and the type, each joined to the directory part.  The
    entries are taken by name alone, whatever their kind. *)
Theorem get_all_files_by_name
        (root : node) (base_path : string) (filetypes : list string) :
  plain base_path ->
  Forall (fun ft => plain ft /\ mem sep ft = false) filetypes ->
  get_all_files root base_path filetypes
  = flat_map
      (fun ft =>
         map (join (glob_dir base_path))
             (filter (fun name =>
                        negb (ishidden name) && endswith name ("." ++ ft))
                     (map fst (entries_of root base_path))))
      filetypes.
Proof.
  intros Hbp Hfts. unfold get_all_files.
  induction Hfts as [|ft fts [Hplain Hsep] _ IH]; cbn [flat_map];
    [reflexivity|].
  rewrite IH. f_equal.
  rewrite glob_joined.
  - now rewrite (glob1_extension root (glob_dir base_path) ft Hplain),
      entries_of_glob_dir.
  - exact Hbp.
  - cbn [String.append mem]. exact Hsep.
  - reflexivity.
Qed.

End Discovery.

Lemma get_all_files_by_name_witness :
  get_all_files Samples.album "pics" default_filetypes
  = ["pics/album.jpg"; "pics/cat.jpg"].
Proof.
  rewrite (get_all_files_by_name Samples.album "pics" default_filetypes).
  - reflexivity.
  - reflexivity.
  - repeat constructor.
Defined.

(** a subdirectory whose name ends in a recognized extension is among
    the discovered paths *)
Lemma discovery_returns_subdirectory :
  In "pics/album.jpg" (get_all_files Samples.album "pics" default_filetypes)
  /\ Posix.isdir Samples.album "pics/album.jpg" = true.
Proof. split; [vm_compute; auto|reflexivity]. Qed.

(** ** A subdirectory named like a picture *)

Section DiscoveredDirectory.
Context {H : Hasher}.
Import Py Posix.

(** C6 fails on a subdirectory whose name ends in a recognized
    extension.  In a directory holding the subdirectory [album.jpg] and
    the file [cat.jpg], [get_all_files] returns the subdirectory with
    the file, it is classified as an original, and a run with
    verification ends with [IsADirectoryError] when [hash_file] opens
    it, right after the [Checking:] line. *)
Theorem subdirectory_discovered_as_file :
  let root := Samples.album in
  get_all_files root "pics" default_filetypes
  = ["pics/album.jpg"; "pics/cat.jpg"]
  /\ isdir root "pics/album.jpg" = true
  /\ originals_of root "pics" = ["pics/album.jpg"; "pics/cat.jpg"]
  /\ hash_file root "pics/album.jpg" = Raise IsADirectoryError
  /\ main 1 "pics" false true false (Samples.start root)
     = (mkWorld root [checking_line "pics"] [], Raise IsADirectoryError).
Proof. cbv zeta. repeat split; vm_compute; reflexivity. Qed.

End DiscoveredDirectory.

(** ** Base names with pattern characters *)

Section PatternNames.
Context {H : Hasher}.
Import Py Posix.

(** C1 fails on base names with pattern characters. In a directory
    holding [IMG[1].jpg], [IMG[1] (1).jpg], [a*.jpg] and [ab (1).jpg],
    the copy of [IMG[1].jpg] meets the rule of the specification and is
    not among its candidates, while [ab (1).jpg] does not begin with
    the base name [a*] and is a candidate of [a*.jpg]. *)
Theorem pattern_characters_in_base_name :
  let root := Samples.bracketed in
  originals_of root "pics" = ["pics/IMG[1].jpg"; "pics/a*.jpg"]
  /\ pic_name_of "pics/IMG[1].jpg" = "IMG[1]"
  /\ spec_candidate " " "pics/IMG[1].jpg" "pics/IMG[1] (1).jpg" = true
  /\ matched_dupes root "pics" " " "pics/IMG[1].jpg" = []
  /\ pic_name_of "pics/a*.jpg" = "a*"
  /\ spec_candidate " " "pics/a*.jpg" "pics/ab (1).jpg" = false
  /\ matched_dupes root "pics" " " "pics/a*.jpg" = ["pics/ab (1).jpg"]
  /\ get_dupes root "pics" (originals_of root "pics") " " false
     = Ok [["pics/ab (1).jpg"]].
Proof. cbv zeta. repeat split; vm_compute; reflexivity. Qed.

End PatternNames.

(** ** The budget of [glob] is never exhausted *)

Section GlobBudget.
Import Py Posix Glob.

Lemma take_length (n : nat) :
  forall s,
    String.length (take n s) <= String.length s
    /\ (String.length (take n s) = String.length s -> take n s = s).
Proof.
  induction n as [|n IH]; intros [|a s]; cbn [take String.length];
    try (split; [lia|]; try reflexivity; discriminate).
  destruct (IH s) as [Hle Heq]. split; [lia|].
  intros E. f_equal. apply Heq. lia.
Qed.

Lemma rstrip_length (c : ascii) (s : string) :
  String.length (rstrip c s) <= String.length s
  /\ (String.length (rstrip c s) = String.length s -> rstrip c s = s).
Proof.
  induction s as [|a s [Hle Heq]]; [split; [cbn; lia|reflexivity]|].
  cbn [rstrip]. destruct (rstrip c s) as [|y r] eqn:E.
  - destruct (Ascii.eqb a c); cbn [String.length] in *.
    + split; [lia|discriminate].
    + split; [lia|]. intros E'. f_equal. apply Heq. lia.
  - cbn [String.length] in *. split; [lia|].
    intros E'. f_equal. apply Heq. lia.
Qed.

(** the directory part is the whole pattern or a shorter text *)
Lemma path_split_dirname (p d b : string) :
  path_split p = (d, b) -> d = p \/ String.length d < String.length p.
Proof.
  unfold path_split, slice_to. intros [= <- _].
  set (h := take _ p).
  destruct (take_length (Z.to_nat (rfind sep p + 1)) p) as [Hle Heq].
  fold h in Hle, Heq.
  destruct (negb (is_empty h) && negb (all_char sep h)).
  - destruct (rstrip_length sep h) as [Hle' Heq'].
    destruct (Nat.eq_dec (String.length (rstrip sep h)) (String.length p))
      as [E|E]; [left|right; lia].
    assert (Eh : String.length h = String.length p) by lia.
    rewrite Heq' by lia. now apply Heq.
  - destruct (Nat.eq_dec (String.length h) (String.length p)) as [E|E];
      [left; now apply Heq|right; lia].
Qed.

Lemma iglob_unfold (fuel : nat) (root : node) (p : string) (dironly : bool) :
  iglob fuel root p dironly
  = iglob_in (fun d => match fuel with
                       | O => []
                       | S f => iglob f root d true
                       end) root p dironly.
Proof. destruct fuel; reflexivity. Qed.

Lemma iglob_in_ext (deeper1 deeper2 : string -> list string) (root : node)
      (p : string) (dironly : bool) :
  (forall d b, path_split p = (d, b) -> String.eqb d p = false ->
               deeper1 d = deeper2 d) ->
  iglob_in deeper1 root p dironly = iglob_in deeper2 root p dironly.
Proof.
  intros Hext. unfold iglob_in.
  destruct (path_split p) as [d b] eqn:Hs.
  destruct (negb (has_magic p)); [reflexivity|].
  destruct (is_empty d); [reflexivity|].
  destruct (String.eqb d p) eqn:E; cbn [negb andb]; [reflexivity|].
  destruct (has_magic d); [|reflexivity].
  now rewrite (Hext d b eq_refl E).
Qed.

(** any two budgets of at least the length of the pattern give the
    same result: [glob] never runs short *)
Lemma iglob_budget (root : node) (n : nat) :
  forall p dironly f1 f2,
    String.length p <= n -> n <= f1 -> n <= f2 ->
    iglob f1 root p dironly = iglob f2 root p dironly.
Proof.
  induction n as [|n IH]; intros p dironly f1 f2 Hp H1 H2;
    rewrite (iglob_unfold f1), (iglob_unfold f2); apply iglob_in_ext;
    intros d b Hs Hne;
    (destruct (path_split_dirname p d b Hs) as [->|Hlt];
     [now rewrite String.eqb_refl in Hne|]).
  - lia.
  - destruct f1 as [|f1]; [lia|]. destruct f2 as [|f2]; [lia|].
    apply IH; lia.
Qed.

End GlobBudget.

(** ** Candidates of a pattern-free base name *)

Section PlainNames.
Import Py Posix Glob.

Lemma split_segments_no_sep (c : ascii) (s : string) :
  Forall (fun seg => mem c seg = false) (split c s).
Proof.
  induction s as [|a s IH]; cbn [split]; [now constructor|].
  destruct (Ascii.eqb a c) eqn:E; [now constructor|].
  destruct (split c s) as [|h t]; [now constructor; [cbn; rewrite E|]|].
  inversion IH as [|? ? Hh Ht]; subst. constructor; [|exact Ht].
  cbn [mem]. now rewrite E, Hh.
Qed.

Lemma last_segment_no_sep (p : string) : mem sep (last_segment p) = false.
Proof.
  unfold last_segment.
  pose proof (split_segments_no_sep sep p) as Hall.
  pose proof (split_not_nil sep p) as Hne.
  induction Hall as [|seg l Hseg Hall IH]; [contradiction|].
  destruct l as [|seg' l]; [exact Hseg|]. apply IH. discriminate.
Qed.

Lemma hd_split_keeps_absent (c x : ascii) (s : string) :
  mem c s = false -> mem c (hd "" (split x s)) = false.
Proof.
  induction s as [|a s IH]; [reflexivity|]. cbn [mem split].
  intros Hm. apply orb_false_iff in Hm as [Ha Hs]. specialize (IH Hs).
  destruct (Ascii.eqb a x); [reflexivity|].
  destruct (split x s) as [|h t]; cbn [hd mem] in *; now rewrite Ha.
Qed.

Lemma pic_name_no_sep (pic_path : string) :
  mem sep (pic_name_of pic_path) = false.
Proof. apply hd_split_keeps_absent, last_segment_no_sep. Qed.

(** the names [glob] keeps for [pic_name*] in one directory *)
Lemma glob1_prefix (root : node) (d pic : string) :
  plain pic -> is_empty pic = false ->
  glob1 root d (pic ++ "*") false
  = filter (fun name => startswith name pic) (map fst (entries_of root d)).
Proof.
  intros Hplain Hne. unfold glob1. rewrite listdir_quiet_entries.
  destruct pic as [|a pic]; [discriminate|].
  destruct (negb (ishidden (String a pic ++ "*"))) eqn:Hh.
  - rewrite filter_filter. apply filter_ext. intros name.
    rewrite (fnmatch_prefix _ name Hplain).
    destruct name as [|b name]; [reflexivity|].
    unfold ishidden in *. cbn [String.append startswith] in *.
    rewrite startswith_empty, andb_true_r in *. apply negb_true_iff in Hh.
    destruct (Ascii.eqb b a) eqn:E; cbn [andb]; [|apply andb_false_r].
    apply Ascii.eqb_eq in E. subst b. now rewrite Hh.
  - apply filter_ext. intros name. apply (fnmatch_prefix _ name Hplain).
Qed.

(** the candidates matched by name, for a base path and a base name
    free of pattern characters *)
Lemma matched_dupes_plain (root : node) (bp ind pic_path : string) :
  plain bp -> plain (pic_name_of pic_path) ->
  is_empty (pic_name_of pic_path) = false ->
  matched_dupes root bp ind pic_path
  = filter (fun p => contains ind (last_segment p)
                     && endswith p (filetype_of pic_path))
           (map (join (glob_dir bp))
                (filter (fun name => startswith name (pic_name_of pic_path))
                        (map fst (entries_of root bp)))).
Proof.
  intros Hbp Hpic Hne. unfold matched_dupes. rewrite glob_joined.
  - now rewrite (glob1_prefix root (glob_dir bp) _ Hpic Hne),
      entries_of_glob_dir.
  - exact Hbp.
  - rewrite mem_append, pic_name_no_sep. reflexivity.
  - rewrite has_magic_append. apply orb_true_r.
Qed.

Lemma endswith_after_sep (a name ft : string) :
  mem sep ft = false ->
  endswith (a ++ String sep name) ft = endswith name ft.
Proof.
  intros Hft.
  assert (Hneq : forall s, mem sep s = true -> String.eqb s ft = false).
  { intros s Hs. apply String.eqb_neq. intros ->. congruence. }
  induction a as [|x a IH]; cbn [String.append endswith].
  - rewrite Hneq; [reflexivity|]. cbn [mem]. now rewrite eqb_ascii_refl.
  - rewrite IH, Hneq; [reflexivity|].
    cbn [mem]. rewrite mem_append. cbn [mem].
    rewrite eqb_ascii_refl. cbn [orb]. now rewrite !orb_true_r.
Qed.

Lemma filter_map_swap {A B : Type} (f : B -> bool) (g : A -> B) (l : list A) :
  filter f (map g l) = map g (filter (fun x => f (g x)) l).
Proof.
  induction l as [|x l IH]; cbn [map filter]; [reflexivity|].
  destruct (f (g x)); cbn [map]; now rewrite IH.
Qed.

Lemma last_segment_plain_name (name : string) :
  mem sep name = false -> last_segment name = name.
Proof. intros Hn. unfold last_segment. now rewrite (split_no_sep _ _ Hn). Qed.

(** the path of an entry: its last segment is the entry name, and it
    ends with a separator-free text exactly when the name does *)
Lemma joined_entry (d name ft : string) :
  mem sep name = false -> mem sep ft = false ->
  last_segment (join d name) = name
  /\ endswith (join d name) ft = endswith name ft.
Proof.
  intros Hname Hft. destruct (is_empty d) eqn:Hd.
  - destruct d; [|discriminate]. rewrite join_empty_l.
    split; [now apply last_segment_plain_name|reflexivity].
  - destruct (join_form d Hd) as (a & Hjoin & _).
    rewrite (Hjoin name (no_sep_not_absolute name Hname)). split.
    + rewrite last_segment_after_sep. now apply last_segment_plain_name.
    + now apply endswith_after_sep.
Qed.

Lemma entries_of_wf (root : node) (bp name : string) :
  wf_tree root = true ->
  In name (map fst (entries_of root bp)) -> wf_name name = true.
Proof.
  intros Hwf Hin. apply in_map_iff in Hin as ([k v] & <- & Hin).
  unfold entries_of, listing, scandir in Hin.
  destruct (stat root _) as [[c r|es w]| |] eqn:Hs; cbn [obind] in Hin;
    try contradiction.
  apply stat_inv in Hs as (_ & cp & _ & Hget).
  pose proof (wf_tree_get cp root _ Hwf Hget) as Hwfd.
  now destruct (wf_tree_entry k v es w Hwfd Hin).
Qed.

(** X6. On a well-formed tree, for a base path and a base name free of
    pattern characters, the candidates of an original are exactly the
    entries of the directory that meet the rule of the specification:
    the unescaped pattern is the one place where [get_dupes] leaves
    the rule. *)
Theorem matched_dupes_plain_names
        (root : node) (bp ind pic_path : string) :
  wf_tree root = true ->
  plain bp -> plain (pic_name_of pic_path) ->
  is_empty (pic_name_of pic_path) = false ->
  mem sep (filetype_of pic_path) = false ->
  matched_dupes root bp ind pic_path
  = map (join (glob_dir bp))
        (filter (spec_candidate ind pic_path) (map fst (entries_of root bp))).
Proof.
  intros Hwf Hbp Hpic Hne Hft.
  rewrite (matched_dupes_plain root bp ind pic_path Hbp Hpic Hne).
  rewrite filter_map_swap, filter_filter. f_equal.
  apply filter_ext_in. intros name Hin.
  apply (entries_of_wf root bp name Hwf) in Hin.
  apply wf_name_facts in Hin as (_ & _ & _ & Hsep).
  destruct (joined_entry (glob_dir bp) name (filetype_of pic_path) Hsep Hft)
    as [-> ->].
  unfold spec_candidate. rewrite (last_segment_plain_name name Hsep).
  now rewrite andb_assoc.
Qed.

End PlainNames.

Lemma matched_dupes_plain_names_witness :
  matched_dupes Samples.pets "pics" " " "pics/cat.jpg" = ["pics/cat (1).jpg"].
Proof.
  rewrite (matched_dupes_plain_names Samples.pets "pics" " " "pics/cat.jpg");
    reflexivity.
Defined.

(** ** The scenarios of the specification, run on the samples *)

(** Verification on, commit off: the true copy of [cat.jpg] is listed,
    the false copy of [dog.png] is not, and nothing is deleted. *)
Example scenario_verified_dry_run :
  @main Samples.spelling_hasher 1 "pics" false true false
        (Samples.start Samples.pets)
  = (mkWorld Samples.pets
             [checking_line "pics"; removing_line;
              dupe_line "pics/cat (1).jpg"]
             [],
     Ok tt).
Proof. vm_compute. reflexivity. Qed.

(** Verification off, commit on: both marked files are deleted. *)
Example scenario_unverified_commit :
  let '(w, r) := @main Samples.spelling_hasher 1 "pics" false false true
                       (Samples.start Samples.pets) in
  r = Ok tt
  /\ unlinks w = ["pics/cat (1).jpg"; "pics/dog (1).png"]
  /\ Posix.listdir (fs w) "pics" = Ok ["cat.jpg"; "dog.png"].
Proof. vm_compute. auto. Qed.

(** A directory without marked files: no duplicates are reported. *)
Example scenario_no_duplicates :
  stdout (fst (@main Samples.spelling_hasher 1 "pics" false false false
                     (Samples.start Samples.album)))
  = [checking_line "pics"; (Py.tab ++ "No duplicates found")%string].
Proof. vm_compute. reflexivity. Qed.

(* ================================================================== *)
(** * Further properties of the script *)

(** ** [hash_file] *)

Section Hashing.
Context {H : Hasher}.
Import Py Posix.

Lemma read_loop_streams (Hs : streaming) (fuel : nat) :
  forall h rest,
    length rest < fuel -> read_loop fuel h rest = Ok (sha1_update h rest).
Proof.
  destruct Hs as [Hnil Happ].
  induction fuel as [|f IH]; intros h rest Hlen; [lia|]. cbn [read_loop].
  destruct (firstn chunk_size rest) as [|b chunk] eqn:E.
  - destruct rest as [|b rest]; [reflexivity|].
    pose proof chunk_size_pos as Hpos.
    destruct chunk_size; [lia|discriminate].
  - rewrite <- E, IH.
    + now rewrite <- Happ, firstn_skipn.
    + rewrite length_skipn. destruct rest as [|b' rest'];
        [now rewrite firstn_nil in E|].
      pose proof chunk_size_pos. simpl in *. lia.
Qed.

(** X1. The digest [hash_file] returns for a readable file is the digest of
    its whole content fed at once: reading in chunks of 1024 bytes, and
    the final empty update, change nothing for a hash object whose
    state depends only on the bytes fed. *)
Theorem hash_file_whole_content
        (root : node) (filename : string) (content : list byte) :
  streaming ->
  open_rb root filename = Ok content ->
  hash_file root filename
  = Ok (sha1_hexdigest (sha1_update sha1_new content)).
Proof.
  intros Hs Ho. unfold hash_file. rewrite Ho. cbn [obind].
  rewrite (read_loop_streams Hs); [reflexivity|lia].
Qed.

End Hashing.

(** ** Verified sets *)

Section VerifiedSets.
Context {H : Hasher}.
Import Py Posix.

Lemma hash_file_content_digest
      (Hs : streaming) (root : node) (p : string) (content : list byte) :
  open_rb root p = Ok content ->
  hash_file root p = Ok (content_digest content).
Proof.
  intros Ho. unfold hash_file, content_digest. rewrite Ho. cbn [obind].
  rewrite (read_loop_streams Hs); [reflexivity|lia].
Qed.

(** C2. With verification on, the original and its candidates open to
    reading, and a hash object whose state depends only on the bytes
    fed to it, the set of an original is computed without error, and a
    candidate matched by name is in it exactly when the digest of its
    bytes equals the digest of the original's bytes; the others are
    left out, and the set enters the result when it is not empty. *)
Theorem verified_set_iff_equal_digest
        (root : node) (base_path indicator pic_path : string)
        (content : list byte) :
  streaming ->
  open_rb root pic_path = Ok content ->
  (forall c, In c (matched_dupes root base_path indicator pic_path) ->
             can_open root c) ->
  exists set,
    cur_dupes_of root base_path indicator true pic_path = Ok set
    /\ (forall c,
           In c set
           <-> In c (matched_dupes root base_path indicator pic_path)
               /\ exists bytes,
                   open_rb root c = Ok bytes
                   /\ content_digest bytes = content_digest content)
    /\ get_dupes root base_path [pic_path] indicator true
       = Ok (if nonempty set then [set] else []).
Proof.
  intros Hs Ho Hcands.
  pose proof (hash_file_content_digest Hs root pic_path content Ho) as Hoh.
  destruct (verified_dupes_spec root (content_digest content) _ Hcands)
    as (kept & Hk & Hiff).
  assert (Hcur : cur_dupes_of root base_path indicator true pic_path = Ok kept).
  { unfold cur_dupes_of. rewrite Hoh. exact Hk. }
  exists kept. split; [exact Hcur|]. split.
  - intros c. rewrite Hiff. split.
    + intros [Hin Hc]. split; [exact Hin|].
      destruct (Hcands c Hin) as [bytes Hb]. exists bytes. split; [exact Hb|].
      rewrite (hash_file_content_digest Hs root c bytes Hb) in Hc. congruence.
    + intros (Hin & bytes & Hb & Hd). split; [exact Hin|].
      now rewrite (hash_file_content_digest Hs root c bytes Hb), Hd.
  - unfold get_dupes. cbn [get_dupes_loop]. rewrite Hcur. cbn [obind].
    now destruct kept.
Qed.

End VerifiedSets.

Lemma spelling_hasher_streaming : @streaming Samples.spelling_hasher.
Proof.
  split; cbn; intros.
  - apply app_nil_r.
  - apply app_assoc.
Qed.

Lemma verified_set_iff_equal_digest_witness :
  (exists set,
      @cur_dupes_of Samples.spelling_hasher Samples.pets "pics" " " true
                    "pics/dog.png" = Ok set
      /\ In "pics/dog (1).png"
            (matched_dupes Samples.pets "pics" " " "pics/dog.png")
      /\ ~ In "pics/dog (1).png" set)
  /\ (exists set,
         @cur_dupes_of Samples.spelling_hasher Samples.pets "pics" " " true
                       "pics/cat.jpg" = Ok set
         /\ In "pics/cat (1).jpg" set).
Proof.
  assert (Hopen : forall o c,
             o = "pics/dog.png" \/ o = "pics/cat.jpg" ->
             In c (matched_dupes Samples.pets "pics" " " o) ->
             can_open Samples.pets c).
  { intros o c [-> | ->] Hc; vm_compute in Hc; destruct Hc as [<-|[]];
      eexists; reflexivity. }
  split.
  - destruct (@verified_set_iff_equal_digest Samples.spelling_hasher
                Samples.pets "pics" " " "pics/dog.png" [x43]
                spelling_hasher_streaming eq_refl
                (fun c => Hopen _ c (or_introl eq_refl)))
      as (set & Hset & Hiff & _).
    exists set. split; [exact Hset|]. split; [vm_compute; auto|].
    intros Hin. apply Hiff in Hin as (_ & bytes & Hb & Hd).
    vm_compute in Hb. injection Hb as <-. vm_compute in Hd. discriminate.
  - destruct (@verified_set_iff_equal_digest Samples.spelling_hasher
                Samples.pets "pics" " " "pics/cat.jpg" [x41; x42]
                spelling_hasher_streaming eq_refl
                (fun c => Hopen _ c (or_intror eq_refl)))
      as (set & Hset & Hiff & _).
    exists set. split; [exact Hset|]. apply Hiff.
    split; [vm_compute; auto|]. exists [x41; x42]. split; reflexivity.
Defined.

Lemma hash_file_whole_content_witness :
  @hash_file Samples.spelling_hasher Samples.pets "pics/cat.jpg" = Ok "AB".
Proof.
  rewrite (@hash_file_whole_content Samples.spelling_hasher Samples.pets
             "pics/cat.jpg" [x41; x42]).
  - reflexivity.
  - exact spelling_hasher_streaming.
  - reflexivity.
Defined.

(** ** [get_originals] and the derived names *)

Section Names.
Import Py Posix.

Lemma contains_empty (s : string) : contains "" s = true.
Proof. destruct s; reflexivity. Qed.

(** X2. With the empty marker every path counts as marked: [get_originals]
    returns no original at all. *)
Theorem get_originals_empty_indicator (all_images : list string) :
  get_originals all_images "" = [].
Proof.
  unfold get_originals. induction all_images as [|p l IH]; [reflexivity|].
  cbn [filter]. now rewrite contains_empty.
Qed.

(** [pic_path[pic_path.rfind('.')+1:]], for a path ending in a dot and
    a dot-free text, is that text *)
Lemma filetype_of_dotted (pre ft : string) :
  mem "." ft = false -> filetype_of (pre ++ String "." ft) = ft.
Proof.
  intros Hft. unfold filetype_of, slice_from.
  rewrite (rfind_app_sep "." pre ft Hft).
  replace (Z.to_nat (Z.of_nat (String.length pre) + 1))
    with (String.length pre + 1) by lia.
  now rewrite drop_app_length.
Qed.

(** X3. A path without any dot has no extension to cut: [rfind] gives -1
    and the "extension" [get_dupes] derives is the whole path. *)
Theorem filetype_of_without_dot (pic_path : string) :
  mem "." pic_path = false -> filetype_of pic_path = pic_path.
Proof.
  intros Hm. unfold filetype_of, slice_from.
  now rewrite (rfind_absent "." pic_path Hm).
Qed.

Lemma filetype_of_without_dot_witness :
  filetype_of "pics/README" = "pics/README".
Proof. apply filetype_of_without_dot. reflexivity. Defined.

End Names.

Lemma filetype_of_dotted_witness :
  filetype_of "my.pics/README" = "pics/README".
Proof. apply (filetype_of_dotted "my" "pics/README"). reflexivity. Defined.

(** ** [get_dupes] without and with verification *)

Section Unverified.
Context {H : Hasher}.
Import Py Posix.

Variable root : node.
Variables base_path indicator : string.

Lemma get_dupes_loop_unverified (originals : list string) :
  forall acc,
    get_dupes_loop root base_path originals indicator false acc
    = Ok (acc ++ filter nonempty
                        (map (matched_dupes root base_path indicator)
                             originals)).
Proof.
  induction originals as [|o rest IH]; intros acc; cbn [get_dupes_loop].
  - cbn. now rewrite app_nil_r.
  - unfold cur_dupes_of at 1. cbn [obind]. rewrite IH. cbn [map filter].
    destruct (nonempty (matched_dupes root base_path indicator o));
      [now rewrite <- app_assoc|reflexivity].
Qed.

(** X4. Without verification [get_dupes] cannot fail, whatever the
    originals and the tree: it returns, in the order of the originals,
    the non-empty lists of candidates matched by name. *)
Theorem get_dupes_unverified (originals : list string) :
  get_dupes root base_path originals indicator false
  = Ok (filter nonempty
               (map (matched_dupes root base_path indicator) originals)).
Proof. unfold get_dupes. now rewrite get_dupes_loop_unverified. Qed.

(** X5. Turning verification on never adds a file: every member of a
    verified set is a member of a set computed without verification. *)
Theorem verification_only_removes
        (originals : list string) (verified : list (list string)) :
  get_dupes root base_path originals indicator true = Ok verified ->
  forall set q,
    In set verified -> In q set ->
    exists set',
      In set' (filter nonempty
                      (map (matched_dupes root base_path indicator) originals))
      /\ In q set'.
Proof.
  intros Hrun set q Hset Hq. unfold get_dupes in Hrun.
  apply get_dupes_loop_spec in Hrun as (sets & Hsets & ->). cbn [app] in Hset.
  apply filter_In in Hset as [Hset _].
  induction Hsets as [|o s os ss Hs _ IH]; [contradiction|].
  assert (Hincl : incl s (matched_dupes root base_path indicator o)).
  { unfold cur_dupes_of in Hs.
    destruct (hash_file root o) as [oh| |]; cbn [obind] in Hs;
      try discriminate.
    eapply verified_dupes_incl; eauto. }
  destruct Hset as [<-|Hset].
  - exists (matched_dupes root base_path indicator o). split; [|auto].
    cbn [map filter].
    destruct (matched_dupes root base_path indicator o) eqn:E;
      [destruct (Hincl q Hq)|now left].
  - destruct (IH Hset) as (set' & Hin & Hq'). exists set'. split; [|exact Hq'].
    cbn [map filter].
    destruct (nonempty (matched_dupes root base_path indicator o));
      [now right|exact Hin].
Qed.

End Unverified.

Lemma verification_only_removes_witness :
  exists set',
    In set' (filter nonempty
                    (map (matched_dupes Samples.pets "pics" " ")
                         (originals_of Samples.pets "pics")))
    /\ In "pics/cat (1).jpg" set'.
Proof.
  apply (@verification_only_removes Samples.spelling_hasher Samples.pets
           "pics" " " (originals_of Samples.pets "pics")
           [["pics/cat (1).jpg"]]) with (set := ["pics/cat (1).jpg"]).
  - vm_compute. reflexivity.
  - now left.
  - now left.
Defined.

(** ** [remove_dupes] in a dry run *)

Section DryReport.
Import Py Posix.

Lemma remove_dupeset_dry (set : list string) :
  forall w,
    remove_dupeset set false w
    = (mkWorld (fs w) (stdout w ++ map dupe_line set) (unlinks w), Ok tt).
Proof.
  induction set as [|p set IH]; intros [r o u]; cbn [remove_dupeset].
  - cbn. now rewrite app_nil_r.
  - unfold bind at 1. rewrite print_run. unfold bind at 1, ret at 1.
    rewrite IH. cbn [fs stdout unlinks map].
    unfold dupe_line. now rewrite <- app_assoc.
Qed.

(** X11. In a dry run [remove_dupes] only prints: for each set the header
    line, then one line per file, in order; the tree and the record of
    deletion attempts stay as they are, and the call returns. *)
Theorem remove_dupes_dry_report (all_dupes : list (list string)) :
  forall w,
    remove_dupes all_dupes false w
    = (mkWorld (fs w)
               (stdout w
                ++ flat_map (fun set => removing_line :: map dupe_line set)
                            all_dupes)
               (unlinks w),
       Ok tt).
Proof.
  induction all_dupes as [|set more IH]; intros [r o u]; cbn [remove_dupes].
  - cbn. now rewrite app_nil_r.
  - unfold bind at 1. rewrite print_run. unfold bind at 1.
    rewrite remove_dupeset_dry. rewrite IH. cbn [fs stdout unlinks flat_map].
    unfold removing_line. now rewrite <- !app_assoc.
Qed.

End DryReport.

(** ** [remove_dupes] in commit mode: what is listed is gone *)

Section Deleted.
Import Py Posix.

Lemma assoc_filter_out (x y : string) (es : list (string * node)) :
  assoc y (filter (fun e => negb (String.eqb (fst e) x)) es)
  = if String.eqb y x then None else assoc y es.
Proof.
  induction es as [|[k v] es IH]; cbn [filter assoc fst].
  - now destruct (String.eqb y x).
  - destruct (String.eqb k x) eqn:Ekx; cbn [negb assoc].
    + rewrite IH. destruct (String.eqb y x) eqn:Eyx; [reflexivity|].
      destruct (String.eqb k y) eqn:Eky; [|reflexivity].
      apply String.eqb_eq in Ekx, Eky. subst.
      now rewrite String.eqb_refl in Eyx.
    + destruct (String.eqb k y) eqn:Eky.
      * apply String.eqb_eq in Eky. subst k. now rewrite Ekx.
      * exact IH.
Qed.

Lemma assoc_map_at (x y : string) (g : node -> node)
      (es : list (string * node)) :
  assoc y (map (fun e => if String.eqb (fst e) x
                         then (fst e, g (snd e)) else e) es)
  = option_map (fun v => if String.eqb y x then g v else v) (assoc y es).
Proof.
  induction es as [|[k v] es IH]; cbn [map assoc fst snd]; [reflexivity|].
  destruct (String.eqb k x) eqn:Ekx; cbn [assoc];
    destruct (String.eqb k y) eqn:Eky; try exact IH; cbn [option_map].
  - apply String.eqb_eq in Eky. subst k. now rewrite Ekx.
  - apply String.eqb_eq in Eky. subst k. now rewrite Ekx.
Qed.

Lemma remove_at_file (content : list byte) (r : bool) (path : list string) :
  remove_at (File content r) path = File content r.
Proof. destruct path as [|x [|x' rest]]; reflexivity. Qed.

Lemma remove_at_last (es : list (string * node)) (w : bool) (x : string) :
  remove_at (Dir es w) [x]
  = Dir (filter (fun e => negb (String.eqb (fst e) x)) es) w.
Proof. reflexivity. Qed.

Lemma remove_at_deeper (es : list (string * node)) (w : bool)
      (x x' : string) (rest : list string) :
  remove_at (Dir es w) (x :: x' :: rest)
  = Dir (map (fun e => if String.eqb (fst e) x
                       then (fst e, remove_at (snd e) (x' :: rest)) else e)
             es) w.
Proof. reflexivity. Qed.

(** what is found in the tree after a removal was there before, and
    was of the same kind *)
Lemma get_after_remove_at (path : list string) :
  forall root c n',
    get (remove_at root path) c = Some n' ->
    exists n, get root c = Some n /\ is_dir n = is_dir n'.
Proof.
  induction path as [|x rest IH]; intros root c n' Hget.
  - destruct root; cbn in Hget; eauto.
  - destruct root as [content r|es w].
    { rewrite remove_at_file in Hget. eauto. }
    destruct c as [|y c].
    { destruct rest; cbn in Hget; injection Hget as <-;
        (eexists; split; reflexivity). }
    destruct rest as [|x' rest'].
    + rewrite remove_at_last in Hget. cbn [get child] in Hget |- *.
      rewrite assoc_filter_out in Hget.
      destruct (String.eqb y x); [discriminate|].
      destruct (assoc y es) as [v|]; [|discriminate]. eauto.
    + rewrite remove_at_deeper in Hget. cbn [get child] in Hget |- *.
      rewrite (assoc_map_at x y (fun v => remove_at v (x' :: rest'))) in Hget.
      destruct (assoc y es) as [v|]; cbn [option_map] in Hget; [|discriminate].
      destruct (String.eqb y x); [|eauto].
      now apply IH in Hget.
Qed.

(** the node removed is no longer found *)
Lemma get_removed (path : list string) :
  forall root, path <> [] -> get (remove_at root path) path = None.
Proof.
  induction path as [|x rest IH]; intros root Hne; [contradiction|].
  destruct root as [content r|es w]; [now rewrite remove_at_file|].
  destruct rest as [|x' rest'].
  - rewrite remove_at_last. cbn [get child]. rewrite assoc_filter_out.
    now rewrite String.eqb_refl.
  - rewrite remove_at_deeper. cbn [get child].
    rewrite (assoc_map_at x x (fun v => remove_at v (x' :: rest'))).
    destruct (assoc x es) as [v|]; cbn [option_map]; [|reflexivity].
    rewrite String.eqb_refl. apply IH. discriminate.
Qed.

Lemma step_after_remove_at (path : list string) (root : node)
      (cp : list string) (seg : string) (cp' : list string) :
  step (remove_at root path) cp seg = Ok cp' -> step root cp seg = Ok cp'.
Proof.
  unfold step.
  destruct (get (remove_at root path) cp) as [[content r|es w]|] eqn:E;
    try discriminate.
  apply get_after_remove_at in E as (n & -> & Hdir).
  destruct n as [content r|es0 w0]; [discriminate|].
  destruct (is_empty seg || String.eqb seg "."); [auto|].
  destruct (String.eqb seg ".."); [auto|].
  destruct (get (remove_at root path) (cp ++ [seg])) as [n'|] eqn:E';
    [|discriminate].
  apply get_after_remove_at in E' as (n & -> & _). auto.
Qed.

Lemma walk_after_remove_at (path : list string) (root : node)
      (segs : list string) :
  forall cp cp',
    walk (remove_at root path) cp segs = Ok cp' -> walk root cp segs = Ok cp'.
Proof.
  induction segs as [|seg segs IH]; intros cp cp' Hw; cbn [walk] in *; auto.
  destruct (step (remove_at root path) cp seg) as [c| |] eqn:E;
    cbn [obind] in Hw; try discriminate.
  rewrite (step_after_remove_at _ _ _ _ _ E). cbn [obind]. auto.
Qed.

Lemma resolve_after_remove_at (path : list string) (root : node)
      (p : string) (cp : list string) :
  resolve (remove_at root path) p = Ok cp -> resolve root p = Ok cp.
Proof.
  unfold resolve. destruct (is_empty p); [discriminate|].
  apply walk_after_remove_at.
Qed.

(** a path that names nothing names nothing after a removal *)
Lemma lexists_after_remove_at (path : list string) (root : node)
      (q : string) :
  lexists root q = false -> lexists (remove_at root path) q = false.
Proof.
  unfold lexists, stat. intros Hq.
  destruct (resolve (remove_at root path) q) as [c| |] eqn:E;
    cbn [obind]; try reflexivity.
  rewrite (resolve_after_remove_at _ _ _ _ E) in Hq. cbn [obind] in Hq.
  destruct (get (remove_at root path) c) as [n'|] eqn:E'; [|reflexivity].
  apply get_after_remove_at in E' as (n & Hn & _). now rewrite Hn in Hq.
Qed.

(** [os.remove]: after success, and after [FileNotFoundError], the
    path names nothing; a path that named nothing before still does *)
Lemma remove_outcomes (root : node) (p : string) :
  let (root', r) := remove root p in
  (forall q, lexists root q = false -> lexists root' q = false)
  /\ (r = Ok tt \/ r = Raise FileNotFoundError -> lexists root' p = false).
Proof.
  unfold remove.
  destruct (resolve root p) as [cp|e|] eqn:Hres.
  - destruct cp as [|x cp']; [split; [auto|intros [E|E]; discriminate]|].
    destruct (get root (removelast (x :: cp'))) as [[c r|es [|]]|];
      destruct (get root (x :: cp')) as [[c' r'|es' w']|];
      first [ split; [auto|intros [E|E]; discriminate]
            | split; [intros q; apply lexists_after_remove_at|]; intros _;
              unfold lexists, stat;
              destruct (resolve (remove_at root (x :: cp')) p) as [c0| |] eqn:E;
              cbn [obind]; try reflexivity;
              apply resolve_after_remove_at in E; rewrite Hres in E;
              injection E as <-; rewrite get_removed;
              [reflexivity|discriminate] ].
  - split; [auto|]. intros _. unfold lexists, stat. now rewrite Hres.
  - split; [auto|]. intros [E|E]; discriminate.
Qed.

Lemma remove_dupeset_gone (set : list string) :
  forall w w',
    remove_dupeset set true w = (w', Ok tt) ->
    (forall q, lexists (fs w) q = false -> lexists (fs w') q = false)
    /\ (forall p, In p set -> lexists (fs w') p = false).
Proof.
  induction set as [|p set IH]; intros w w' Hrun.
  - cbn in Hrun. injection Hrun as <-. split; [auto|contradiction].
  - rewrite remove_dupeset_cons in Hrun. unfold os_remove in Hrun.
    rewrite print_run in Hrun. cbn [fst fs stdout unlinks] in Hrun.
    pose proof (remove_outcomes (fs w) p) as Hrm.
    destruct (remove (fs w) p) as [root' r]. destruct Hrm as [Hkeep Hgone].
    assert (Hnext : exists w1,
               fs w1 = root' /\ remove_dupeset set true w1 = (w', Ok tt)
               /\ (r = Ok tt \/ r = Raise FileNotFoundError)).
    { destruct r as [[]|e|]; try discriminate.
      - eexists. split; [|split; [exact Hrun|now left]]. reflexivity.
      - destruct (exn_eqb e FileNotFoundError) eqn:Ee; [|discriminate].
        apply exn_eqb_eq in Ee. subst e. rewrite print_run in Hrun.
        eexists. split; [|split; [exact Hrun|now right]]. reflexivity. }
    destruct Hnext as (w1 & Hfs & Hrest & Hr).
    destruct (IH w1 w' Hrest) as [Hkeep' Hgone']. rewrite Hfs in Hkeep'.
    split; [auto|]. intros q [<-|Hq]; auto.
Qed.

(** X12. When a commit-mode [remove_dupes] returns, none of the paths in the
    sets names anything any more, whether it was deleted by this call
    or was already missing; and no path that named nothing before the
    call names something after it. *)
Theorem remove_dupes_commit_all_gone (all_dupes : list (list string)) :
  forall w w',
    remove_dupes all_dupes true w = (w', Ok tt) ->
    (forall q, lexists (fs w) q = false -> lexists (fs w') q = false)
    /\ (forall set p, In set all_dupes -> In p set ->
                      lexists (fs w') p = false).
Proof.
  induction all_dupes as [|set more IH]; intros w w' Hrun.
  - cbn in Hrun. injection Hrun as <-. split; [auto|contradiction].
  - rewrite remove_dupes_cons in Hrun. rewrite print_run in Hrun.
    cbn [fst] in Hrun.
    destruct (remove_dupeset set true _) as [w1 [[]|e|]] eqn:Hset;
      try discriminate.
    apply remove_dupeset_gone in Hset as [Hkeep Hgone]. cbn [fs] in Hkeep.
    destruct (IH w1 w' Hrun) as [Hkeep' Hgone'].
    split; [auto|]. intros s p [<-|Hs] Hp; eauto.
Qed.

End Deleted.

Lemma remove_dupes_commit_all_gone_witness :
  Posix.lexists
    (fs (fst (remove_dupes [["pics/cat (1).jpg"; "pics/gone.jpg"]] true
                           (Samples.start Samples.pets))))
    "pics/cat (1).jpg" = false.
Proof.
  refine (proj2 (remove_dupes_commit_all_gone
                   [["pics/cat (1).jpg"; "pics/gone.jpg"]]
                   (Samples.start Samples.pets) _ _)
                ["pics/cat (1).jpg"; "pics/gone.jpg"] "pics/cat (1).jpg" _ _).
  - vm_compute. reflexivity.
  - now left.
  - now left.
Defined.

(** ** What discovery hands to the resolver *)

Section Discovered.
Import Py Posix Glob.

Lemma default_filetypes_plain :
  Forall (fun ft => plain ft /\ mem sep ft = false /\ mem "." ft = false)
         default_filetypes.
Proof. repeat constructor. Qed.

(** the paths [glob] returns for [*.ftype] under a pattern-free base
    path *)
Lemma in_glob_extension (root : node) (bp ft p : string) :
  plain bp -> plain ft -> mem sep ft = false ->
  (In p (glob root (join bp ("*." ++ ft)))
   <-> exists name,
        In name (map fst (entries_of root bp))
        /\ ishidden name = false
        /\ endswith name ("." ++ ft) = true
        /\ p = join (glob_dir bp) name).
Proof.
  intros Hbp Hft Hsep. rewrite glob_joined; auto.
  rewrite (glob1_extension root (glob_dir bp) ft Hft), entries_of_glob_dir.
  rewrite in_map_iff. split.
  - intros (name & <- & Hin). apply filter_In in Hin as [Hin Hc].
    apply andb_true_iff in Hc as [Hh He]. apply negb_true_iff in Hh.
    exists name. auto.
  - intros (name & Hin & Hh & He & ->). exists name. split; [reflexivity|].
    apply filter_In. split; [exact Hin|]. now rewrite Hh, He.
Qed.

Lemma hd_split_first (c a : ascii) (r : string) :
  Ascii.eqb a c = false -> is_empty (hd "" (split c (String a r))) = false.
Proof.
  intros Ha. cbn [split]. rewrite Ha. now destruct (split c r).
Qed.

(** a path discovered for a type: the name and the extension
    [get_dupes] derives from it *)
Lemma discovered_for_type (root : node) (bp ft p : string) :
  wf_tree root = true -> plain bp -> plain ft ->
  mem sep ft = false -> mem "." ft = false ->
  In p (glob root (join bp ("*." ++ ft))) ->
  filetype_of p = ft
  /\ is_empty (pic_name_of p) = false
  /\ In (last_segment p) (map fst (entries_of root bp))
  /\ p = join (glob_dir bp) (last_segment p).
Proof.
  intros Hwf Hbp Hft Hsep Hdot Hin.
  apply in_glob_extension in Hin as (name & Hname & Hh & He & ->); auto.
  pose proof (entries_of_wf root bp name Hwf Hname) as Hwfn.
  apply wf_name_facts in Hwfn as (Hne & _ & _ & Hnsep).
  destruct (joined_entry (glob_dir bp) name ("." ++ ft) Hnsep) as [Hlast Hends];
    [cbn [String.append mem]; exact Hsep|].
  rewrite <- Hends in He. apply endswith_inv in He as [pre Hp].
  split; [|split; [|split]].
  - rewrite Hp. cbn [String.append]. now apply filetype_of_dotted.
  - unfold pic_name_of. rewrite Hlast.
    destruct name as [|a r]; [discriminate|].
    apply hd_split_first. unfold ishidden in Hh. cbn [startswith] in Hh.
    rewrite startswith_empty, andb_true_r in Hh. exact Hh.
  - now rewrite Hlast.
  - now rewrite Hlast.
Qed.

(** X9. For a well-formed tree and a base path free of pattern characters,
    every path [get_all_files] returns is an entry of the directory,
    the extension [get_dupes] will cut from it is the recognized type
    it was found under, and its base name is not empty. *)
Theorem discovered_paths_well_formed
        (root : node) (base_path : string) (filetypes : list string)
        (p : string) :
  wf_tree root = true ->
  plain base_path ->
  Forall (fun ft => plain ft /\ mem sep ft = false /\ mem "." ft = false)
         filetypes ->
  In p (get_all_files root base_path filetypes) ->
  In (filetype_of p) filetypes
  /\ is_empty (pic_name_of p) = false
  /\ In (last_segment p) (map fst (entries_of root base_path))
  /\ p = join (glob_dir base_path) (last_segment p).
Proof.
  intros Hwf Hbp Hfts Hin. unfold get_all_files in Hin.
  apply in_flat_map in Hin as (ft & Hft & Hin).
  rewrite Forall_forall in Hfts. destruct (Hfts ft Hft) as (Hp & Hs & Hd).
  destruct (discovered_for_type root base_path ft p Hwf Hbp Hp Hs Hd Hin)
    as (-> & Hrest).
  split; [exact Hft|exact Hrest].
Qed.

End Discovered.

Lemma discovered_paths_well_formed_witness :
  In (filetype_of "pics/cat.jpg") default_filetypes
  /\ Py.is_empty (pic_name_of "pics/cat.jpg") = false
  /\ In (last_segment "pics/cat.jpg")
        (map fst (entries_of Samples.pets "pics"))
  /\ "pics/cat.jpg" = Posix.join (glob_dir "pics") (last_segment "pics/cat.jpg").
Proof.
  apply (discovered_paths_well_formed Samples.pets "pics" default_filetypes).
  - reflexivity.
  - reflexivity.
  - exact default_filetypes_plain.
  - vm_compute. auto.
Defined.

(** ** The sets stay inside the scanned directory *)

Section Locality.
Context {H : Hasher}.
Import Py Posix Glob.

Lemma matched_dupes_in_directory (root : node) (bp ind o q : string) :
  plain bp ->
  In q (matched_dupes root bp ind o) ->
  exists name,
    In name (map fst (entries_of root bp))
    /\ q = join (glob_dir bp) name
    /\ contains ind (last_segment q) = true.
Proof.
  intros Hbp Hq. unfold matched_dupes in Hq.
  apply filter_In in Hq as [Hq Hc]. apply andb_true_iff in Hc as [Hc _].
  rewrite glob_joined in Hq; auto.
  - apply in_map_iff in Hq as (name & <- & Hname).
    unfold glob1 in Hname. apply filter_In in Hname as [Hname _].
    exists name. split; [|auto].
    rewrite listdir_quiet_entries, entries_of_glob_dir in Hname.
    destruct (negb (ishidden (pic_name_of o ++ "*"))); [|exact Hname].
    now apply filter_In in Hname as [Hname _].
  - rewrite mem_append, pic_name_no_sep. reflexivity.
  - rewrite has_magic_append. apply orb_true_r.
Qed.

(** X7. For a base path free of pattern characters, whatever the originals
    handed in and with or without verification, every path in every
    set [get_dupes] returns is an entry of the directory at
    [base_path], joined to its directory part, and carries the marker
    in its name: nothing outside that directory can be listed for
    deletion. *)
Theorem get_dupes_within_directory
        (root : node) (base_path indicator : string) (verify : bool)
        (originals : list string) (dupes : list (list string)) :
  plain base_path ->
  get_dupes root base_path originals indicator verify = Ok dupes ->
  forall set q,
    In set dupes -> In q set ->
    exists name,
      In name (map fst (entries_of root base_path))
      /\ q = join (glob_dir base_path) name
      /\ contains indicator (last_segment q) = true.
Proof.
  intros Hbp Hrun set q Hset Hq. unfold get_dupes in Hrun.
  apply get_dupes_loop_spec in Hrun as (sets & Hsets & ->). cbn [app] in Hset.
  apply filter_In in Hset as [Hset _].
  induction Hsets as [|o s os ss Hs _ IH]; [contradiction|].
  destruct Hset as [<-|Hset]; [|auto].
  apply (matched_dupes_in_directory root base_path indicator o q Hbp).
  unfold cur_dupes_of in Hs. destruct verify.
  - destruct (hash_file root o) as [oh| |]; cbn [obind] in Hs;
      try discriminate.
    eapply verified_dupes_incl; eauto.
  - now injection Hs as <-.
Qed.

End Locality.

Lemma get_dupes_within_directory_witness :
  exists name,
    In name (map fst (entries_of Samples.pets "pics"))
    /\ "pics/cat (1).jpg" = Posix.join (glob_dir "pics") name
    /\ Py.contains " " (last_segment "pics/cat (1).jpg") = true.
Proof.
  apply (@get_dupes_within_directory Samples.spelling_hasher Samples.pets
           "pics" " " true ["pics/cat.jpg"] [["pics/cat (1).jpg"]])
    with (set := ["pics/cat (1).jpg"]).
  - reflexivity.
  - vm_compute. reflexivity.
  - now left.
  - now left.
Defined.

(** ** Discovery lists no path twice *)

Section DiscoveredOnce.
Import Py Posix Glob.

Lemma NoDup_map_on {A B : Type} (f : A -> B) (l : list A) :
  (forall x y, In x l -> In y l -> f x = f y -> x = y) ->
  NoDup l -> NoDup (map f l).
Proof.
  intros Hinj Hl. induction Hl as [|x l Hx Hl IH]; cbn [map]; constructor.
  - rewrite in_map_iff. intros (y & E & Hy).
    apply Hinj in E; [subst; contradiction|now right|now left].
  - apply IH. intros a b Ha Hb. apply Hinj; now right.
Qed.

Lemma glob_extension_NoDup (root : node) (bp ft : string) :
  wf_tree root = true -> plain bp -> plain ft -> mem sep ft = false ->
  NoDup (map fst (entries_of root bp)) ->
  NoDup (glob root (join bp ("*." ++ ft))).
Proof.
  intros Hwf Hbp Hft Hsep Hnames. rewrite glob_joined; auto.
  rewrite (glob1_extension root (glob_dir bp) ft Hft), entries_of_glob_dir.
  apply NoDup_map_on; [|now apply NoDup_filter].
  intros x y Hx Hy E.
  apply filter_In in Hx as [Hx _]. apply filter_In in Hy as [Hy _].
  apply (entries_of_wf root bp _ Hwf) in Hx, Hy.
  apply wf_name_facts in Hx as (_ & _ & _ & Hx).
  apply wf_name_facts in Hy as (_ & _ & _ & Hy).
  destruct (joined_entry (glob_dir bp) x "" Hx eq_refl) as [<- _].
  destruct (joined_entry (glob_dir bp) y "" Hy eq_refl) as [<- _].
  now rewrite E.
Qed.

(** X10. On a well-formed tree whose directory has distinct entry names, for
    a base path free of pattern characters and distinct dot-free types,
    [get_all_files] returns no path twice: a name ends with a dot and
    one type only, so no file is handed to the resolver under two
    types. *)
Theorem get_all_files_NoDup
        (root : node) (base_path : string) (filetypes : list string) :
  wf_tree root = true ->
  plain base_path ->
  Forall (fun ft => plain ft /\ mem sep ft = false /\ mem "." ft = false)
         filetypes ->
  NoDup filetypes ->
  NoDup (map fst (entries_of root base_path)) ->
  NoDup (get_all_files root base_path filetypes).
Proof.
  intros Hwf Hbp Hfts Hnd Hnames. unfold get_all_files.
  induction Hfts as [|ft fts (Hp & Hs & Hd) Hfts IH]; cbn [flat_map];
    [constructor|].
  apply NoDup_cons_iff in Hnd as [Hnotin Hnd].
  apply NoDup_app; [now apply glob_extension_NoDup|now apply IH|].
  intros p Hin Hin'.
  destruct (discovered_for_type root base_path ft p Hwf Hbp Hp Hs Hd Hin)
    as (Eft & _).
  apply in_flat_map in Hin' as (ft' & Hft' & Hin').
  rewrite Forall_forall in Hfts. destruct (Hfts ft' Hft') as (Hp' & Hs' & Hd').
  destruct (discovered_for_type root base_path ft' p Hwf Hbp Hp' Hs' Hd' Hin')
    as (Eft' & _).
  apply Hnotin. congruence.
Qed.

End DiscoveredOnce.

Lemma get_all_files_NoDup_witness :
  NoDup (get_all_files Samples.pets "pics" default_filetypes).
Proof.
  apply get_all_files_NoDup.
  - reflexivity.
  - reflexivity.
  - exact default_filetypes_plain.
  - repeat constructor; cbn; intuition discriminate.
  - repeat constructor; cbn; intuition discriminate.
Defined.

(** ** [main] on a path that is not a directory *)

Section NotADirectory.
Context {H : Hasher}.
Import Py Posix Glob.

Lemma get_all_files_no_entries
      (root : node) (bp : string) (filetypes : list string) :
  plain bp ->
  Forall (fun ft => plain ft /\ mem sep ft = false /\ mem "." ft = false)
         filetypes ->
  entries_of root bp = [] ->
  get_all_files root bp filetypes = [].
Proof.
  intros Hbp Hfts Hnone. unfold get_all_files.
  induction Hfts as [|ft fts (Hp & Hs & _) _ IH]; cbn [flat_map];
    [reflexivity|].
  rewrite IH, app_nil_r, glob_joined; auto.
  now rewrite (glob1_extension root (glob_dir bp) ft Hp), entries_of_glob_dir,
    Hnone.
Qed.

(** X14. When [base_path], free of pattern characters and not empty, cannot
    be listed (it does not exist, or is not a directory), discovery
    finds nothing instead of failing: a non-recursive [main] reports
    that there are no duplicates and returns, and a recursive one
    prints the same two lines and then ends with the error of
    [os.listdir]. *)
Theorem main_unlistable_base_path
        (f : nat) (root : node) (base_path : string)
        (recursive verify do_del : bool) (out ul : list string) (e : exn) :
  plain base_path ->
  is_empty base_path = false ->
  listdir root base_path = Raise e ->
  main (S f) base_path recursive verify do_del (mkWorld root out ul)
  = (mkWorld root
             (out ++ [checking_line base_path;
                      (tab ++ "No duplicates found")%string])
             ul,
     if recursive then Raise e else Ok tt).
Proof.
  intros Hbp Hne Hls.
  assert (Hnone : entries_of root base_path = []).
  { unfold entries_of, listing. rewrite Hne. unfold listdir in Hls.
    destruct (scandir root base_path); [discriminate|reflexivity..]. }
  assert (Hfiles : get_all_files root base_path default_filetypes = []).
  { apply get_all_files_no_entries; auto using default_filetypes_plain. }
  cbn [main]. unfold bind at 1. rewrite print_run.
  unfold bind at 1, lift at 1. unfold bind at 1, lift at 1.
  cbn [fs stdout unlinks]. rewrite Hfiles.
  cbn [get_originals filter get_dupes get_dupes_loop nonempty negb].
  unfold bind at 1. rewrite print_run. cbn [fs stdout unlinks].
  unfold bind at 1. cbn [remove_dupes]. unfold ret at 1.
  rewrite <- app_assoc. cbn [app]. fold (checking_line base_path).
  destruct recursive; [|reflexivity].
  unfold bind at 1, lift at 1. cbn [fs]. now rewrite Hls.
Qed.

End NotADirectory.

Lemma main_unlistable_base_path_witness :
  @main Samples.spelling_hasher 1 "nowhere" true false true
        (Samples.start Samples.pets)
  = (mkWorld Samples.pets
             [checking_line "nowhere"; (Py.tab ++ "No duplicates found")%string]
             [],
     Raise FileNotFoundError).
Proof.
  apply (@main_unlistable_base_path Samples.spelling_hasher 0 Samples.pets
           "nowhere" true false true [] [] FileNotFoundError); reflexivity.
Defined.

(** ** The entry point *)

Section EntryPointFacts.
Context {H : Hasher}.
Import Py Posix.

Lemma do_verify_run (do_del interrupted : bool) (w : world) :
  do_verify do_del interrupted w
  = (mkWorld (fs w)
             (stdout w ++ warning_lines do_del ++ [waiting_line]
                       ++ (if interrupted then [interrupt_line] else []))
             (unlinks w),
     if interrupted then SystemExit else Continue).
Proof.
  unfold do_verify. destruct w as [r o u].
  destruct do_del, interrupted; cbn [warning_lines for_each];
    unfold bind, print, ret; cbn [fst fs stdout unlinks];
    rewrite <- ?app_assoc; reflexivity.
Qed.

(** X16. Without [--run] the script changes nothing in the tree and hands
    nothing to [os.remove], whatever the other options, the budget, and
    whether the wait is interrupted. *)
Theorem script_without_run_deletes_nothing
        (fuel : nat) (opt : options) (interrupted : bool) (w : world) :
  opt_run opt = false ->
  fs (fst (script fuel opt interrupted w)) = fs w
  /\ unlinks (fst (script fuel opt interrupted w)) = unlinks w.
Proof.
  intros Hrun. unfold script. rewrite Hrun.
  destruct (negb (opt_skip_check opt)).
  - rewrite do_verify_run. destruct interrupted; [split; reflexivity|].
    match goal with
    | |- context [main fuel ?bp ?rec ?v false ?w1] =>
        destruct (main_dry_no_mutation fuel bp rec v w1) as [Hfs Hul];
        destruct (main fuel bp rec v false w1) as [w2 r]
    end.
    cbn [fst fs unlinks] in *. now split.
  - destruct (main_dry_no_mutation fuel (opt_base_path opt) (opt_recursive opt)
                                   (opt_verify opt) w) as [Hfs Hul].
    destruct (main _ _ _ _ false w) as [w2 r]. cbn [fst] in *. now split.
Qed.

(** X17. When the wait of [do_verify] is interrupted, the script exits
    before [main]: with or without [--run], no directory is processed,
    the tree is as it was and nothing was handed to [os.remove]; what
    was printed is the warning, the waiting line and the interrupt
    line. *)
Theorem script_interrupted_exits_before_main
        (fuel : nat) (opt : options) (w : world) :
  opt_skip_check opt = false ->
  script fuel opt true w
  = (mkWorld (fs w)
             (stdout w ++ warning_lines (opt_run opt)
                       ++ [waiting_line; interrupt_line])
             (unlinks w),
     Exited).
Proof.
  intros Hskip. unfold script. rewrite Hskip. cbn [negb].
  now rewrite do_verify_run.
Qed.

End EntryPointFacts.

Lemma script_without_run_deletes_nothing_witness :
  fs (fst (@script Samples.spelling_hasher 2
                   (mkOptions "pics" true true false false) false
                   (Samples.start Samples.pets)))
  = Samples.pets.
Proof.
  apply (@script_without_run_deletes_nothing Samples.spelling_hasher 2
           (mkOptions "pics" true true false false) false
           (Samples.start Samples.pets)).
  reflexivity.
Defined.

Lemma script_interrupted_exits_before_main_witness :
  snd (@script Samples.spelling_hasher 2
               (mkOptions "pics" true false true false) true
               (Samples.start Samples.pets))
  = Exited.
Proof.
  rewrite (@script_interrupted_exits_before_main Samples.spelling_hasher 2
             (mkOptions "pics" true false true false)
             (Samples.start Samples.pets)); reflexivity.
Defined.

(** ** The recursion into subdirectories *)

Section Visits.
Context {H : Hasher}.
Import Py Posix.

(** the invariant "what was printed starts with [pre]" *)
Lemma prefix_kept_by_print (pre : list string) (line : string) (w : world) :
  (exists rest, stdout w = pre ++ rest) ->
  exists rest, stdout (fst (print line w)) = pre ++ rest.
Proof.
  intros [rest E]. exists (rest ++ [line]). cbn. now rewrite E, app_assoc.
Qed.

Lemma prefix_kept_by_remove (pre : list string) (p : string) (w : world) :
  (exists rest, stdout w = pre ++ rest) ->
  exists rest, stdout (fst (os_remove p w)) = pre ++ rest.
Proof.
  intros HE. unfold os_remove. now destruct (remove (fs w) p).
Qed.

Lemma main_keeps_prefix (pre : list string) (fuel : nat) (bp : string)
      (rec v d : bool) :
  preserves (fun w => exists rest, stdout w = pre ++ rest)
            (main fuel bp rec v d).
Proof.
  apply preserves_main with (allowed := fun _ => True); auto.
  - intros line w. apply prefix_kept_by_print.
  - intros _ p w _. apply prefix_kept_by_remove.
Qed.

(** a run that gets to start prints its [Checking:] line first *)
Lemma main_prints_checking (f : nat) (bp : string) (rec v d : bool)
      (w : world) :
  exists rest,
    stdout (fst (main (S f) bp rec v d w))
    = stdout w ++ checking_line bp :: rest.
Proof.
  set (I := fun w' : world =>
              exists rest, stdout w' = (stdout w ++ [checking_line bp]) ++ rest).
  assert (HI : I (fst (main (S f) bp rec v d w))).
  { cbn [main]. unfold bind at 1. rewrite print_run.
    assert (Hp : forall line w', I w' -> I (fst (print line w')))
      by (intros; now apply prefix_kept_by_print).
    match goal with
    | |- I (fst (?tail ?w1)) =>
        cut (preserves I tail);
        [intros P; apply (P w1); exists []; cbn; now rewrite app_nil_r|]
    end.
    apply preserves_bind; [apply preserves_lift|]. intros root_images.
    apply preserves_bind; [apply preserves_lift|]. intros dupes.
    apply preserves_bind.
    { destruct (nonempty dupes); [apply preserves_ret|now apply preserves_print]. }
    intros _. apply preserves_bind.
    { apply (preserves_remove_dupes I Hp d (fun _ => True)).
      - intros _ p w' _. apply prefix_kept_by_remove.
      - apply Forall_forall. intros s _. apply Forall_forall. auto. }
    intros _. destruct rec; [|apply preserves_ret].
    apply preserves_bind; [apply preserves_lift|]. intros names.
    apply preserves_bind; [apply preserves_lift|]. intros dirs.
    destruct (nonempty dirs); [|apply preserves_ret].
    apply preserves_for_each. intros cd _. apply main_keeps_prefix. }
  destruct HI as [rest E]. exists rest. now rewrite E, <- app_assoc.
Qed.

Lemma for_each_main_visits (f : nat) (rec v d : bool) (dirs : list string) :
  forall w w',
    for_each dirs (fun cd => main f cd rec v d) w = (w', Ok tt) ->
    exists rest,
      stdout w' = stdout w ++ rest
      /\ forall cd, In cd dirs -> In (checking_line cd) rest.
Proof.
  induction dirs as [|x dirs IH]; intros w w' Hrun.
  - cbn in Hrun. injection Hrun as <-. exists []. split;
      [now rewrite app_nil_r|contradiction].
  - cbn [for_each] in Hrun. unfold bind at 1 in Hrun.
    destruct (main f x rec v d w) as [w1 [[]|e|]] eqn:Ex; try discriminate.
    destruct f as [|f']; [discriminate|].
    destruct (main_prints_checking f' x rec v d w) as [r1 E1].
    rewrite Ex in E1. cbn [fst] in E1.
    destruct (IH w1 w' Hrun) as (r2 & E2 & Hall).
    exists (checking_line x :: r1 ++ r2). split.
    + rewrite E2, E1, <- app_assoc. reflexivity.
    + intros cd [<-|Hcd]; [now left|].
      right. apply in_or_app. right. auto.
Qed.

(** X15. A recursive dry run that returns has processed every immediate
    subdirectory of [base_path]: for each entry [d] that
    [os.path.isdir] accepts, the report holds the line
    [Checking: join(base_path, d)]. *)
Theorem recursive_dry_run_visits_subdirectories
        (f : nat) (root : node) (base_path : string) (verify : bool)
        (out ul : list string) (w' : world) (names : list string)
        (d : string) :
  main (S f) base_path true verify false (mkWorld root out ul) = (w', Ok tt) ->
  listdir root base_path = Ok names ->
  In d names ->
  isdir root (join base_path d) = true ->
  In (checking_line (join base_path d)) (report (mkWorld root out ul) w').
Proof.
  intros Hrun Hls Hd Hdir. cbn [main] in Hrun.
  unfold bind at 1 in Hrun. rewrite print_run in Hrun.
  unfold bind at 1, lift at 1 in Hrun. unfold bind at 1, lift at 1 in Hrun.
  cbn [fs stdout unlinks] in Hrun.
  destruct (get_dupes root base_path _ default_indicator verify)
    as [dupes| |]; try discriminate.
  unfold bind at 1 in Hrun.
  set (w1 := mkWorld root (out ++ [("Checking: " ++ base_path)%string]) ul)
    in Hrun.
  assert (Hnote : exists w2,
             (if negb (nonempty dupes)
              then print (tab ++ "No duplicates found") else ret tt) w1
             = (w2, Ok tt)
             /\ fs w2 = root /\ exists r, stdout w2 = out ++ r).
  { destruct (nonempty dupes); cbn [negb]; eexists; (split; [reflexivity|]);
      (split; [reflexivity|]); cbn [stdout w1]; rewrite <- ?app_assoc; eauto. }
  destruct Hnote as (w2 & E2 & Hfs2 & r2 & Hout2). rewrite E2 in Hrun.
  unfold bind at 1 in Hrun.
  destruct (harmless_remove_dupes root dupes w2 Hfs2) as [Hfs3 _].
  assert (Hout3 : exists r, stdout (fst (remove_dupes dupes false w2)) = out ++ r).
  { apply (preserves_remove_dupes
             (fun w => exists r, stdout w = out ++ r)
             (fun line w => prefix_kept_by_print out line w)
             false (fun _ => True)); eauto.
    - intros [=].
    - apply Forall_forall. intros s _. apply Forall_forall. auto. }
  destruct (remove_dupes dupes false w2) as [w3 [[]|e|]]; try discriminate.
  cbn [fst] in Hfs3, Hout3. destruct Hout3 as [r3 Hout3].
  unfold bind at 1, lift at 1 in Hrun. rewrite Hfs3, Hls in Hrun.
  unfold bind at 1, lift at 1 in Hrun. rewrite Hfs3 in Hrun.
  assert (Hcd : In (join base_path d)
                   (map (join base_path)
                        (filter (fun d0 => isdir root (join base_path d0))
                                names))).
  { apply in_map, filter_In. auto. }
  destruct (map (join base_path) _) as [|cd0 dirs] eqn:Edirs in Hrun, Hcd;
    [contradiction|].
  cbn [nonempty] in Hrun.
  apply for_each_main_visits in Hrun as (rest & Hout & Hall).
  unfold report. cbn [stdout]. rewrite Hout, Hout3, <- app_assoc.
  rewrite skipn_length_app. apply in_or_app. right. auto.
Qed.

End Visits.

Lemma recursive_dry_run_visits_subdirectories_witness :
  In (checking_line "top/sub")
     (report (Samples.start Samples.nested_tree)
             (fst (@main Samples.spelling_hasher 2 "top" true false false
                         (Samples.start Samples.nested_tree)))).
Proof.
  apply (@recursive_dry_run_visits_subdirectories Samples.spelling_hasher
           1 Samples.nested_tree "top" false [] []
           (fst (@main Samples.spelling_hasher 2 "top" true false false
                       (Samples.start Samples.nested_tree)))
           ["bird.gif"; "sub"] "sub").
  - vm_compute. reflexivity.
  - reflexivity.
  - cbn. auto.
  - reflexivity.
Defined.

(** ** Originals whose base names are prefixes of one another *)

Section PrefixedNames.
Import Py Posix Glob.

Lemma startswith_trans (name b a : string) :
  startswith name b = true -> startswith b a = true ->
  startswith name a = true.
Proof.
  revert name b. induction a as [|x a IH]; intros name b Hnb Hba;
    [apply startswith_empty|].
  destruct b as [|y b]; [discriminate|].
  destruct name as [|z name]; [discriminate|].
  cbn [startswith] in *.
  apply andb_true_iff in Hnb as [Hzy Hnb].
  apply andb_true_iff in Hba as [Hyx Hba].
  apply Ascii.eqb_eq in Hzy, Hyx. subst.
  rewrite eqb_ascii_refl. cbn [andb]. eauto.
Qed.

(** X8. When the base name of one original is a prefix of another's and
    both have the same extension (base path and base names free of
    pattern characters), every candidate of the longer-named original
    is also a candidate of the shorter-named one: the match is by
    prefix, not by whole base name. *)
Theorem prefix_original_inherits_candidates
        (root : node) (bp ind short long : string) :
  plain bp ->
  plain (pic_name_of short) -> is_empty (pic_name_of short) = false ->
  plain (pic_name_of long) -> is_empty (pic_name_of long) = false ->
  startswith (pic_name_of long) (pic_name_of short) = true ->
  filetype_of short = filetype_of long ->
  incl (matched_dupes root bp ind long) (matched_dupes root bp ind short).
Proof.
  intros Hbp Hps Hns Hpl Hnl Hpre Hft q Hq.
  rewrite (matched_dupes_plain root bp ind long Hbp Hpl Hnl) in Hq.
  rewrite (matched_dupes_plain root bp ind short Hbp Hps Hns).
  apply filter_In in Hq as [Hq Hc]. apply filter_In. rewrite Hft.
  split; [|exact Hc].
  apply in_map_iff in Hq as (name & <- & Hname). apply in_map.
  apply filter_In in Hname as [Hname Hs]. apply filter_In.
  split; [exact Hname|]. eapply startswith_trans; eauto.
Qed.

End PrefixedNames.

Lemma prefix_original_inherits_candidates_witness :
  incl (matched_dupes Samples.prefixed "pics" " " "pics/photo2.jpg")
       (matched_dupes Samples.prefixed "pics" " " "pics/photo.jpg").
Proof.
  apply prefix_original_inherits_candidates; reflexivity.
Defined.

(** ** The deletion attempts of a commit-mode [remove_dupes] *)

Section Attempts.
Import Py Posix.

Lemma remove_dupeset_attempts (set : list string) :
  forall w w',
    remove_dupeset set true w = (w', Ok tt) ->
    unlinks w' = unlinks w ++ set.
Proof.
  induction set as [|p set IH]; intros w w' Hrun.
  - cbn in Hrun. injection Hrun as <-. now rewrite app_nil_r.
  - rewrite remove_dupeset_cons in Hrun. unfold os_remove in Hrun.
    rewrite print_run in Hrun. cbn [fst fs stdout unlinks] in Hrun.
    destruct (remove (fs w) p) as [root' [[]|e|]]; try discriminate.
    + apply IH in Hrun. cbn [unlinks] in Hrun.
      now rewrite Hrun, <- app_assoc.
    + destruct (exn_eqb e FileNotFoundError); [|discriminate].
      rewrite print_run in Hrun. apply IH in Hrun.
      cbn [fst unlinks] in Hrun. now rewrite Hrun, <- app_assoc.
Qed.

(** X13. When a commit-mode [remove_dupes] returns, [os.remove] was called
    once on every listed path, set after set and in the order of each
    set: no listed file is skipped, and a file listed in two sets is
    attempted twice. *)
Theorem remove_dupes_attempts_in_order (all_dupes : list (list string)) :
  forall w w',
    remove_dupes all_dupes true w = (w', Ok tt) ->
    unlinks w' = unlinks w ++ concat all_dupes.
Proof.
  induction all_dupes as [|set more IH]; intros w w' Hrun.
  - cbn in Hrun. injection Hrun as <-. cbn. now rewrite app_nil_r.
  - rewrite remove_dupes_cons in Hrun. rewrite print_run in Hrun.
    cbn [fst] in Hrun.
    destruct (remove_dupeset set true _) as [w1 [[]|e|]] eqn:Hset;
      try discriminate.
    apply remove_dupeset_attempts in Hset. cbn [unlinks] in Hset.
    apply IH in Hrun. cbn [concat]. now rewrite Hrun, Hset, <- app_assoc.
Qed.

End Attempts.

Lemma remove_dupes_attempts_in_order_witness :
  unlinks (fst (remove_dupes [["pics/photo2 (1).jpg"]; ["pics/photo2 (1).jpg"]]
                             true (Samples.start Samples.prefixed)))
  = ["pics/photo2 (1).jpg"; "pics/photo2 (1).jpg"].
Proof.
  apply (remove_dupes_attempts_in_order
           [["pics/photo2 (1).jpg"]; ["pics/photo2 (1).jpg"]]
           (Samples.start Samples.prefixed)).
  vm_compute. reflexivity.
Defined.
